(** * The Cognito PKCE auth gate and the transcription upload form of
    [frontend/src/App.tsx], embedded as executable definitions.

    Conventions.
    - A JavaScript string is a [string]; its characters are code units in the
      Latin-1 range, which is where every character this program inspects
      (base64 alphabets, separators, padding) lives.
    - A [Uint8Array] is a [list byte].
    - [localStorage] and [sessionStorage] are [gmap string string];
      [getItem] is lookup, [null] is [None].
    - A function that can throw returns an [option] ([None] is the throw)
      or an [outcome] (returned or thrown); code that reads and writes the
      browser is a function of the [Browser] it runs in.
    - A parsed JSON value is read at the type the program gives it:
      [Record<string, string>] for the payload of the ID token,
      [{ detail?: string }] and [TranscriptResponse] for the body of the
      transcription endpoint. The body of the token endpoint is read without
      a type: its two fields are JSON values of any kind.
    - The platform functions the program calls ([btoa], [atob], [padEnd],
      [replace], [split], [URLSearchParams], [TextEncoder], SHA-256) are
      written out after their standards; what the outside world supplies
      (random bytes, HTTP responses, the page URL) is an argument. *)

From Stdlib Require Import NArith ZArith Ascii String Strings.Byte List Lia.
From stdpp Require Import base option list gmap strings pretty.

(** ** Strings *)

Module JsString.

Abbreviation chars := list_ascii_of_string (only parsing).
Abbreviation str := string_of_list_ascii (only parsing).

(** [s.length] *)
Definition length (s : string) : nat := String.length s.

(** [String.fromCharCode(byte)] for a byte of a [Uint8Array]. *)
Definition fromCharCode (b : byte) : string :=
  String (ascii_of_byte b) EmptyString.

(** [s.replace(/c/g, d)] for single characters [c] and [d]. *)
Fixpoint replaceAll (c d : ascii) (s : string) : string :=
  match s with
  | EmptyString => EmptyString
  | String x r =>
      String (if Ascii.eqb x c then d else x) (replaceAll c d r)
  end.

Fixpoint all_char (c : ascii) (s : string) : bool :=
  match s with
  | EmptyString => true
  | String x r => Ascii.eqb x c && all_char c r
  end.

(** [s.replace(/c+$/, '')]: the leftmost place from which only [c]
    follows up to the end of the input, if there is one, is where the
    string is cut. *)
Fixpoint replaceTrailingRun (c : ascii) (s : string) : string :=
  match s with
  | EmptyString => EmptyString
  | String x r =>
      if Ascii.eqb x c && all_char c r then EmptyString
      else String x (replaceTrailingRun c r)
  end.

Fixpoint repeat_char (c : ascii) (n : nat) : string :=
  match n with
  | O => EmptyString
  | S k => String c (repeat_char c k)
  end.

(** [s.padEnd(target, c)] for a one-character filler. *)
Definition padEnd (s : string) (target : nat) (c : ascii) : string :=
  s +:+ repeat_char c (target - length s).

(** [s.startsWith(p)] *)
Definition startsWith (s p : string) : bool := String.prefix p s.

(** [s.split(c)] for a one-character separator: never empty. *)
Fixpoint split_go (c : ascii) (cur : string) (s : string) : list string :=
  match s with
  | EmptyString => [String.rev cur]
  | String x r =>
      if Ascii.eqb x c then String.rev cur :: split_go c EmptyString r
      else split_go c (String x cur) r
  end.
Definition split (c : ascii) (s : string) : list string :=
  split_go c EmptyString s.

(** Truthiness of a string: [Boolean(s)], [!s], [s || t]. *)
Definition truthy (s : string) : bool :=
  match s with EmptyString => false | _ => true end.

(** Truthiness of [string | null] and [string | undefined]. *)
Definition truthy_opt (o : option string) : bool :=
  match o with Some s => truthy s | None => false end.

End JsString.

(** ** Base64 as the platform implements it

    [btoa] is the base64 encoding of RFC 4648 with padding; [atob] is the
    forgiving-base64 decoding of the WHATWG Infra standard. *)

Module Base64.

Local Open Scope N_scope.

Definition alphabet : list ascii :=
  list_ascii_of_string
    "ABCDEFGHIJKLMNOPQRSTUVWXYZabcdefghijklmnopqrstuvwxyz0123456789+/".

Definition char_of_sextet (n : N) : ascii :=
  nth (N.to_nat n) alphabet "="%char.

Fixpoint index_from (c : ascii) (l : list ascii) (i : N) : option N :=
  match l with
  | [] => None
  | x :: r => if Ascii.eqb c x then Some i else index_from c r (N.succ i)
  end.

Definition sextet_of_char (c : ascii) : option N := index_from c alphabet 0.

(** Three octets make four sextets; one or two trailing octets make two or
    three, the last one filled with zero bits. *)
Fixpoint sextets (l : list N) : list N :=
  match l with
  | a :: b :: c :: r =>
      a / 4 :: (a mod 4) * 16 + b / 16 :: (b mod 16) * 4 + c / 64
        :: c mod 64 :: sextets r
  | [a; b] => [a / 4; (a mod 4) * 16 + b / 16; (b mod 16) * 4]
  | [a] => [a / 4; (a mod 4) * 16]
  | [] => []
  end.

Definition padding (n : nat) : list ascii :=
  repeat "="%char ((3 - n mod 3) mod 3)%nat.

Definition encode (l : list N) : list ascii :=
  map char_of_sextet (sextets l) ++ padding (List.length l).

(** Four sextets make three octets; a final group of two or three sextets
    makes one or two, its surplus low bits discarded. *)
Fixpoint octets (l : list N) : list N :=
  match l with
  | s1 :: s2 :: s3 :: s4 :: r =>
      s1 * 4 + s2 / 16 :: (s2 mod 16) * 16 + s3 / 4 :: (s3 mod 4) * 64 + s4
        :: octets r
  | [s1; s2; s3] => [s1 * 4 + s2 / 16; (s2 mod 16) * 16 + s3 / 4]
  | [s1; s2] => [s1 * 4 + s2 / 16]
  | _ => []
  end.

Definition is_ascii_whitespace (c : ascii) : bool :=
  match N_of_ascii c with
  | 9 | 10 | 12 | 13 | 32 => true
  | _ => false
  end.

(** Step 2 of forgiving-base64 decode: when the length is a multiple of
    four, one or two [=] at the end are removed. *)
Definition strip_padding (l : list ascii) : list ascii :=
  if (List.length l mod 4 =? 0)%nat then
    match rev l with
    | x :: y :: r =>
        if Ascii.eqb x "=" then
          if Ascii.eqb y "=" then rev r else rev (y :: r)
        else l
    | [x] => if Ascii.eqb x "=" then [] else l
    | [] => l
    end
  else l.

Fixpoint all_sextets (l : list ascii) : option (list N) :=
  match l with
  | [] => Some []
  | c :: r =>
      match sextet_of_char c, all_sextets r with
      | Some n, Some ns => Some (n :: ns)
      | _, _ => None
      end
  end.

Definition decode (l : list ascii) : option (list N) :=
  let data := List.filter (fun c => negb (is_ascii_whitespace c)) l in
  let data := strip_padding data in
  if (List.length data mod 4 =? 1)%nat then None
  else option_map octets (all_sextets data).

(** [btoa(s)]: every character of a [string] is at most U+00FF, so the
    call cannot throw here. *)
Definition btoa (s : string) : string :=
  string_of_list_ascii (encode (map N_of_ascii (list_ascii_of_string s))).

(** [atob(s)]; [None] is the [InvalidCharacterError] it throws. *)
Definition atob (s : string) : option string :=
  option_map (fun bs => string_of_list_ascii (map ascii_of_N bs))
    (decode (list_ascii_of_string s)).

End Base64.

(** ** The program: base64url helpers (App.tsx, lines 52-68) *)

Definition base64UrlEncode (buffer : list byte) : string :=
  let binary :=
    fold_left (fun acc b => acc +:+ JsString.fromCharCode b) buffer
      EmptyString in
  JsString.replaceTrailingRun "="
    (JsString.replaceAll "/" "_"
       (JsString.replaceAll "+" "-" (Base64.btoa binary))).

Definition base64UrlDecode (value : string) : option string :=
  let len := JsString.length value in
  let padded :=
    JsString.padEnd value (len + ((4 - (len mod 4)) mod 4))%nat "=" in
  let normalized :=
    JsString.replaceAll "_" "/" (JsString.replaceAll "-" "+" padded) in
  Base64.atob normalized.

(** ** UTF-8 and URL query serialisation as the platform implements them *)

Module Url.

Local Open Scope N_scope.

(** UTF-8 of one code unit of the Latin-1 range. *)
Definition utf8_char (c : ascii) : list N :=
  let n := N_of_ascii c in
  if n <? 128 then [n] else [192 + n / 64; 128 + n mod 64].

Definition byte_of_N (n : N) : byte := byte_of_ascii (ascii_of_N n).

(** [new TextEncoder().encode(s)] *)
Definition TextEncoder_encode (s : string) : list byte :=
  map byte_of_N (flat_map utf8_char (list_ascii_of_string s)).

Definition hex_digit (n : N) : ascii :=
  nth (N.to_nat n) (list_ascii_of_string "0123456789ABCDEF") "0"%char.

(** The bytes that the application/x-www-form-urlencoded serialiser leaves
    as they are: [*], [-], [.], [_], digits and letters. *)
Definition unreserved (b : N) : bool :=
  (b =? 42) || (b =? 45) || (b =? 46) || (b =? 95)
  || ((48 <=? b) && (b <=? 57)) || ((65 <=? b) && (b <=? 90))
  || ((97 <=? b) && (b <=? 122)).

Definition encode_byte (b : N) : string :=
  if b =? 32 then "+"
  else if unreserved b then String (ascii_of_N b) EmptyString
  else String "%" (String (hex_digit (b / 16))
                     (String (hex_digit (b mod 16)) EmptyString)).

Fixpoint encode_bytes (l : list N) : string :=
  match l with
  | [] => EmptyString
  | b :: r => encode_byte b +:+ encode_bytes r
  end.

Fixpoint urlencode (s : string) : string :=
  match s with
  | EmptyString => EmptyString
  | String c r => encode_bytes (utf8_char c) +:+ urlencode r
  end.

(** [new URLSearchParams(record).toString()]: the entries in insertion
    order, [name=value] joined by [&]. *)
Fixpoint serialize (entries : list (string * string)) : string :=
  match entries with
  | [] => EmptyString
  | [(k, v)] => urlencode k +:+ "=" +:+ urlencode v
  | (k, v) :: r => urlencode k +:+ "=" +:+ urlencode v +:+ "&" +:+ serialize r
  end.

(** [params.get(name)]: the value of the first entry of that name. *)
Fixpoint get (name : string) (entries : list (string * string))
  : option string :=
  match entries with
  | [] => None
  | (k, v) :: r => if String.eqb k name then Some v else get name r
  end.

End Url.

(** ** SHA-256 (FIPS 180-4), which [crypto.subtle.digest] computes *)

Module Sha256.

Local Open Scope N_scope.

Definition w32 (x : N) : N := x mod 4294967296.
Definition add32 (x y : N) : N := w32 (x + y).
Definition rotr (n x : N) : N :=
  N.lor (N.shiftr x n) (w32 (N.shiftl x (32 - n))).
Definition not32 (x : N) : N := N.lxor x 4294967295.

Definition Ch (x y z : N) : N :=
  N.lxor (N.land x y) (N.land (not32 x) z).
Definition Maj (x y z : N) : N :=
  N.lxor (N.lxor (N.land x y) (N.land x z)) (N.land y z).
Definition Sigma0 (x : N) : N :=
  N.lxor (N.lxor (rotr 2 x) (rotr 13 x)) (rotr 22 x).
Definition Sigma1 (x : N) : N :=
  N.lxor (N.lxor (rotr 6 x) (rotr 11 x)) (rotr 25 x).
Definition sigma0 (x : N) : N :=
  N.lxor (N.lxor (rotr 7 x) (rotr 18 x)) (N.shiftr x 3).
Definition sigma1 (x : N) : N :=
  N.lxor (N.lxor (rotr 17 x) (rotr 19 x)) (N.shiftr x 10).

(** The first [n] primes at or below [bound], by trial division. *)
Definition is_prime (p : nat) : bool :=
forallb (fun d => negb (p mod d =? 0)%nat) (seq 2 (p - 2)).

Definition primes (bound : nat) : list N :=
map N.of_nat (List.filter is_prime (seq 2 (bound - 1))).

(** The integer cube root: the largest [r] with [r * r * r <= n], for [n]
    below [2 ^ 123], found bit by bit. *)
Definition cube_root (n : N) : N :=
fold_left
  (fun r bit =>
     let r' := r + N.shiftl 1 (N.of_nat bit) in
     if r' * r' * r' <=? n then r' else r)
  (rev (seq 0 41)) 0.

(** The first 32 bits of the fractional parts of the cube roots of the
    first 64 primes. *)
Definition K : list N :=
map (fun p => w32 (cube_root (N.shiftl p 96))) (primes 311).

Definition hash := (N * N * N * N * N * N * N * N)%type.

(** The first 32 bits of the fractional parts of the square roots of the
    first 8 primes. *)
Definition H0 : hash :=
let h := fun p => w32 (N.sqrt (N.shiftl p 64)) in
(h 2, h 3, h 5, h 7, h 11, h 13, h 17, h 19).

(** The message, a 1 bit, zero bits, and the bit length on 64 bits, to a
    multiple of 64 bytes. *)
Definition be_bytes (width : nat) (x : N) : list N :=
  map (fun i => (N.shiftr x (8 * N.of_nat i)) mod 256) (rev (seq 0 width)).

Definition pad (msg : list N) : list N :=
  let len := List.length msg in
  let zeros := ((64 - (len + 9) mod 64) mod 64)%nat in
  msg ++ [128] ++ repeat 0 zeros ++ be_bytes 8 (8 * N.of_nat len).

Fixpoint be_words (fuel : nat) (l : list N) : list N :=
  match fuel, l with
  | S k, a :: b :: c :: d :: r =>
      (a * 16777216 + b * 65536 + c * 256 + d) :: be_words k r
  | _, _ => []
  end.

(** The message schedule, newest word first. *)
Fixpoint extend (n : nat) (w : list N) : list N :=
  match n with
  | O => w
  | S k =>
      let next :=
        add32 (add32 (sigma1 (nth 1 w 0)) (nth 6 w 0))
          (add32 (sigma0 (nth 14 w 0)) (nth 15 w 0)) in
      extend k (next :: w)
  end.

Definition schedule (block : list N) : list N :=
  rev (extend 48 (rev (be_words 16 block))).

Definition round (s : hash) (kw : N * N) : hash :=
  let '(a, b, c, d, e, f, g, h) := s in
  let t1 :=
    add32 (add32 (add32 h (Sigma1 e)) (add32 (Ch e f g) (fst kw)))
      (snd kw) in
  let t2 := add32 (Sigma0 a) (Maj a b c) in
  (add32 t1 t2, a, b, c, add32 d t1, e, f, g).

Definition compress (s : hash) (block : list N) : hash :=
  let '(a, b, c, d, e, f, g, h) := s in
  let '(a', b', c', d', e', f', g', h') :=
    fold_left round (combine K (schedule block)) s in
  (add32 a a', add32 b b', add32 c c', add32 d d',
   add32 e e', add32 f f', add32 g g', add32 h h').

Fixpoint blocks (fuel : nat) (s : hash) (l : list N) : hash :=
  match fuel with
  | O => s
  | S k =>
      match l with
      | [] => s
      | _ => blocks k (compress s (firstn 64 l)) (skipn 64 l)
      end
  end.

Definition digest_words (msg : list N) : hash :=
  let padded := pad msg in
  blocks (List.length padded) H0 padded.

Definition sha256 (data : list byte) : list byte :=
  let '(a, b, c, d, e, f, g, h) := digest_words (map Byte.to_N data) in
  map Url.byte_of_N (flat_map (be_bytes 4) [a; b; c; d; e; f; g; h]).

End Sha256.

(** ** The browser around the program *)

(** A thrown value: an [Error] with its message, or something else. *)
Inductive thrown : Type :=
| Error (message : string)
| NotAnError.

(** What a function that can throw ends in. *)
Inductive outcome (A : Type) : Type :=
| Returned (a : A)
| Thrown (e : thrown).
Arguments Returned {A} a.
Arguments Thrown {A} e.

Record File := { file_name : string; file_size : N }.

Inductive Body : Type :=
| UrlEncodedBody (s : string)
| FormDataBody (entries : list (string * File)).

Record Request := {
  url : string;
  method : string;
  headers : list (string * string);
  body : Body;
}.

(** A response, by what the program reads of it. [json] is what
    [response.json()] settles to, at the type [A] at which the program reads
    the parsed body: a rejection (the body is not JSON), or the value, which
    may be [null] ([None]). *)
Record Response (A : Type) := {
  status : N;
  json : outcome (option A);
}.
Arguments status {A} r.
Arguments json {A} r.

(** [response.ok]: the status is in the range 200-299. *)
Definition ok {A : Type} (r : Response A) : bool :=
  ((200 <=? status r) && (status r <=? 299))%N.

(** What [fetch] settles to: a rejection (network failure) or a response. *)
Inductive FetchResult (A : Type) : Type :=
| FetchRejects (e : thrown)
| FetchResolves (r : Response A).
Arguments FetchRejects {A} e.
Arguments FetchResolves {A} r.

(** The [TypeError] of reading a property of [null]; no code here looks at
    its message. *)
Definition TypeError_null : thrown :=
  Error "Cannot read properties of null".

Record Browser := {
  localStorage : gmap string string;
  sessionStorage : gmap string string;
  (** [new URLSearchParams(window.location.search)] *)
  location_search : list (string * string);
  (** the requests [fetch] has issued, oldest first *)
  network : list Request;
  (** the URLs [window.location.assign] was called with, oldest first *)
  navigation : list string;
}.

Definition set_localStorage (m : gmap string string) (w : Browser)
  : Browser :=
  {| localStorage := m;
     sessionStorage := sessionStorage w;
     location_search := location_search w;
     network := network w;
     navigation := navigation w |}.

Definition set_sessionStorage (m : gmap string string) (w : Browser)
  : Browser :=
  {| localStorage := localStorage w;
     sessionStorage := m;
     location_search := location_search w;
     network := network w;
     navigation := navigation w |}.

Definition log_request (req : Request) (w : Browser) : Browser :=
  {| localStorage := localStorage w;
     sessionStorage := sessionStorage w;
     location_search := location_search w;
     network := network w ++ [req];
     navigation := navigation w |}.

Definition log_navigation (target : string) (w : Browser) : Browser :=
  {| localStorage := localStorage w;
     sessionStorage := sessionStorage w;
     location_search := location_search w;
     network := network w;
     navigation := navigation w ++ [target] |}.

(** A computation on the browser that returns or throws. *)
Definition M (A : Type) : Type := Browser -> outcome A * Browser.

Definition ret {A : Type} (a : A) : M A := fun w => (Returned a, w).

Definition throw {A : Type} (e : thrown) : M A := fun w => (Thrown e, w).

Definition bind {A B : Type} (m : M A) (k : A -> M B) : M B :=
  fun w =>
    match m w with
    | (Returned a, w') => k a w'
    | (Thrown e, w') => (Thrown e, w')
    end.

(** A call that touches nothing of the browser. *)
Definition settled {A : Type} (r : outcome A) : M A := fun w => (r, w).

(** [try { m } catch (e) { h e }] *)
Definition try_catch {A : Type} (m : M A) (h : thrown -> M A) : M A :=
  fun w =>
    match m w with
    | (Returned a, w') => (Returned a, w')
    | (Thrown e, w') => h e w'
    end.

(** [try { m } catch (e) { h e }] around the whole of a handler, with an
    [h] that cannot throw: nothing is thrown any more. *)
Definition catch_all {A : Type} (m : M A) (h : thrown -> A)
  : Browser -> A * Browser :=
  fun w =>
    match m w with
    | (Returned a, w') => (a, w')
    | (Thrown e, w') => (h e, w')
    end.

Notation "'let*' x ':=' m 'in' k" := (bind m (fun x => k))
  (at level 10, x name, m at level 100, k at level 200).

Module Storage.

Definition getItem_local (key : string) : M (option string) :=
  fun w => (Returned (localStorage w !! key), w).

Definition getItem_session (key : string) : M (option string) :=
  fun w => (Returned (sessionStorage w !! key), w).

Definition setItem_local (key value : string) : M unit :=
  fun w =>
    (Returned tt, set_localStorage (<[key := value]> (localStorage w)) w).

Definition setItem_session (key value : string) : M unit :=
  fun w =>
    (Returned tt,
     set_sessionStorage (<[key := value]> (sessionStorage w)) w).


Definition removeItem_session (key : string) : M unit :=
  fun w =>
    (Returned tt, set_sessionStorage (delete key (sessionStorage w)) w).

End Storage.

(** [fetch(url, init)] against a server that answers [server]: the request
    goes out, then the promise settles. *)
Definition fetch {A : Type} (server : Request -> FetchResult A)
  (req : Request) : M (Response A) :=
  fun w =>
    match server req with
    | FetchRejects e => (Thrown e, log_request req w)
    | FetchResolves r => (Returned r, log_request req w)
    end.

(** [await response.json()] *)
Definition response_json {A : Type} (r : Response A) : M (option A) :=
  fun w => (json r, w).

(** [window.location.assign(url)] *)
Definition location_assign (target : string) : M unit :=
  fun w => (Returned tt, log_navigation target w).

(** [window.history.replaceState(null, '', window.location.pathname)]: the
    query string is gone from the address. *)
Definition history_replaceState_pathname (w : Browser) : Browser :=
  {| localStorage := localStorage w;
     sessionStorage := sessionStorage w;
     location_search := [];
     network := network w;
     navigation := navigation w |}.

Definition QuotaExceededError : thrown := Error "QuotaExceededError".

(** [crypto.getRandomValues(bytes)]: every element is overwritten with what
    the generator [entropy] gives; an array of more than 65536 bytes is
    refused. *)
Definition getRandomValues (entropy : nat -> byte) (bytes : list byte)
  : outcome (list byte) :=
  if (65536 <? N.of_nat (List.length bytes))%N then Thrown QuotaExceededError
  else Returned (imap (fun i _ => entropy i) bytes).

(** [new Uint8Array(length)] *)
Definition new_Uint8Array (length : nat) : list byte := replicate length x00.

(** ** The auth gate (App.tsx, lines 6-159) *)

Definition CODE_VERIFIER_KEY : string := "cognito_pkce_verifier".

Record AuthConfig := {
  domain : string;
  clientId : string;
  redirectUri : string;
  logoutUri : string;
  scope : string;
  authority : option string;
}.

(** [a || b] on [string | null] and on [string | undefined]. *)
Definition js_or (a b : option string) : option string :=
  if JsString.truthy_opt a then a else b.

(** [a || d] where [d] is a string: the result is a string. *)
Definition js_or_string (a : option string) (d : string) : string :=
  match a with
  | Some s => if JsString.truthy s then s else d
  | None => d
  end.

Definition isAuthenticated (w : Browser) : bool :=
  JsString.truthy_opt
    (js_or (localStorage w !! "cognito_id_token")
       (localStorage w !! "cognito_access_token")).

Definition buildHostedUrl (config : AuthConfig) (path : string) : string :=
  let base :=
    if JsString.startsWith (domain config) "http" then domain config
    else "https://" +:+ domain config in
  base +:+ path.


(** The [||] chain of [getUserLabel] over the decoded payload. *)
Definition label_of_claims (decoded : gmap string string) : string :=
  js_or_string
    (js_or
       (js_or
          (js_or
             (js_or
                (js_or (decoded !! "name") (decoded !! "given_name"))
                (decoded !! "email"))
             (decoded !! "cognito:username"))
          (decoded !! "preferred_username"))
       (decoded !! "username"))
    "".

Section WithJSON.

(** [JSON.parse], at the type [Record<string, string>] that [getUserLabel]
    casts its result to: it throws, or returns the object or [null]. *)
Variable JSON_parse : string -> outcome (option (gmap string string)).

Definition getUserLabel (w : Browser) : string :=
  match localStorage w !! "cognito_id_token" with
  | None => ""
  | Some idToken =>
      if negb (JsString.truthy idToken) then ""
      else
        (* const [, payload] = idToken.split('.') *)
        match JsString.split "." idToken !! 1%nat with
        | None => ""
        | Some payload =>
            if negb (JsString.truthy payload) then ""
            else
              match base64UrlDecode payload with
              | None => "" (* atob throws *)
              | Some text =>
                  match JSON_parse text with
                  | Thrown _ => ""
                  | Returned None => "" (* decoded.name throws *)
                  | Returned (Some decoded) => label_of_claims decoded
                  end
              end
        end
  end.

End WithJSON.

Definition randomVerifier (entropy : nat -> byte) (length : nat)
  : outcome string :=
  let bytes := new_Uint8Array length in
  match getRandomValues entropy bytes with
  | Thrown e => Thrown e
  | Returned bytes => Returned (base64UrlEncode bytes)
  end.

(** [crypto.subtle.digest] is taken to be there and to settle: the promise
    of [createCodeChallenge] is its value. *)
Definition createCodeChallenge (verifier : string) : string :=
  let data := Url.TextEncoder_encode verifier in
  let digest := Sha256.sha256 data in
  base64UrlEncode digest.

Definition buildLoginUrl (entropy : nat -> byte) (config : AuthConfig)
  : M string :=
  let* codeVerifier := settled (randomVerifier entropy 64) in
  let codeChallenge := createCodeChallenge codeVerifier in
  let* _ := Storage.setItem_session CODE_VERIFIER_KEY codeVerifier in
  let base := buildHostedUrl config "/oauth2/authorize" in
  let params :=
    [("client_id", clientId config);
     ("response_type", "code");
     ("scope", scope config);
     ("redirect_uri", redirectUri config);
     ("code_challenge", codeChallenge);
     ("code_challenge_method", "S256")] in
  ret (base +:+ "?" +:+ Url.serialize params).

(** A number, by what a program that tests it and prints it sees of it:
    whether it is zero, and the characters [String(n)] gives, of which there
    is at least one. *)
Record JsNumber := {
  number_nonzero : bool;
  number_head : ascii;
  number_tail : string;
}.

(** The values [JSON.parse] and [response.json()] produce. *)
#[warnings="-register-all"]
Inductive JsValue : Type :=
| VNull
| VBool (b : bool)
| VNumber (n : JsNumber)
| VString (s : string)
| VArray (items : list JsValue)
| VObject (members : list (string * JsValue)).

Module JsValue.

(** [Boolean(v)] *)
Definition truthy (v : JsValue) : bool :=
  match v with
  | VNull => false
  | VBool b => b
  | VNumber n => number_nonzero n
  | VString s => JsString.truthy s
  | VArray _ | VObject _ => true
  end.

(** [Boolean(v)] where [v] may be [undefined]. *)
Definition truthy_opt (v : option JsValue) : bool :=
  match v with
  | Some v => truthy v
  | None => false
  end.

(** [a || b] where either may be [undefined]. *)
Definition or (a b : option JsValue) : option JsValue :=
  if truthy_opt a then a else b.

(** [String(v)], the conversion [localStorage.setItem] applies to its
    value: an array is its elements joined by commas, an element that is
    [null] giving nothing; an object is ["[object Object]"]. *)
Fixpoint ToString (v : JsValue) : string :=
  match v with
  | VNull => "null"
  | VBool b => if b then "true" else "false"
  | VNumber n => String (number_head n) (number_tail n)
  | VString s => s
  | VArray items =>
      (fix join (l : list JsValue) : string :=
         match l with
         | [] => ""
         | x :: r =>
             let first :=
               match x with
               | VNull => ""
               | _ => ToString x
               end in
             match r with
             | [] => first
             | _ => first +:+ "," +:+ join r
             end
         end) items
  | VObject _ => "[object Object]"
  end.

End JsValue.

(** The body of the token endpoint's answer, by the two properties the
    program reads from it: each [undefined] or a value of any kind. A body
    that is not an object (a number, a string, an array) has neither. *)
Record TokenPayload := {
  id_token : option JsValue;
  access_token : option JsValue;
}.

(** A token that, when it is truthy, is stored as a non-empty string. Every
    string is one. *)
Definition storable (token : option JsValue) : bool :=
  match token with
  | Some v => negb (JsValue.truthy v) || JsString.truthy (JsValue.ToString v)
  | None => true
  end.


Definition token_request (config : AuthConfig) (code verifier : string)
  : Request :=
  let params :=
    [("grant_type", "authorization_code");
     ("client_id", clientId config);
     ("code", code);
     ("redirect_uri", redirectUri config);
     ("code_verifier", verifier)] in
  {| url := buildHostedUrl config "/oauth2/token";
     method := "POST";
     headers := [("Content-Type", "application/x-www-form-urlencoded")];
     body := UrlEncodedBody (Url.serialize params) |}.

(** [if (token) { localStorage.setItem(key, token) }]: what is stored is
    the string the value converts to. *)
Definition store_token (key : string) (token : option JsValue) : M unit :=
  match token with
  | Some v =>
      if JsValue.truthy v
      then Storage.setItem_local key (JsValue.ToString v)
      else ret tt
  | None => ret tt
  end.

Definition exchangeCodeForTokens
  (server : Request -> FetchResult TokenPayload)
  (config : AuthConfig) (code : string) : M bool :=
  let* verifier := Storage.getItem_session CODE_VERIFIER_KEY in
  match verifier with
  | None => throw (Error "Missing PKCE code verifier")
  | Some verifier =>
      if negb (JsString.truthy verifier) then
        throw (Error "Missing PKCE code verifier")
      else
        let* response := fetch server (token_request config code verifier) in
        if negb (ok response) then throw (Error "Token exchange failed")
        else
          let* payload := response_json response in
          match payload with
          | None => throw TypeError_null
          | Some payload =>
              let* _ := store_token "cognito_id_token" (id_token payload) in
              let* _ :=
                store_token "cognito_access_token" (access_token payload) in
              let* _ := Storage.removeItem_session CODE_VERIFIER_KEY in
              ret (JsValue.truthy_opt
                     (JsValue.or (id_token payload) (access_token payload)))
          end
  end.

(** ** The [App] component (App.tsx, lines 191-294) *)

Record AppState := {
  authed : bool;
  authError : string;
  userLabel : string;
}.

(** What the page may lack of the platform. *)
Record Platform := {
  (** [crypto.subtle] is there: the page is a secure context *)
  subtle_available : bool;
  (** the URL parser accepts the string as an address to go to *)
  url_parses : string -> bool;
}.

Definition TypeError_undefined : thrown :=
  Error "Cannot read properties of undefined".

Definition SyntaxError : thrown := Error "SyntaxError".

(** [Boolean(config.domain && config.clientId)] *)
Definition hasConfig (config : AuthConfig) : bool :=
  JsString.truthy (domain config) && JsString.truthy (clientId config).

Section App.

Variable JSON_parse : string -> outcome (option (gmap string string)).
Variable config : AuthConfig.

(** The [useState] initialisers of the first render. *)
Definition App_initial (w : Browser) : AppState :=
  {| authed := isAuthenticated w;
     authError := "";
     userLabel := getUserLabel JSON_parse w |}.

(** [useEffect(..., [authed])] *)
Definition effect_authed (w : Browser) (st : AppState) : AppState :=
  {| authed := authed st;
     authError := authError st;
     userLabel := if authed st then getUserLabel JSON_parse w else "" |}.

(** The effect above runs again after a render in which [authed] has
    changed. *)
Definition after_render (before : bool) (w : Browser) (st : AppState)
  : AppState :=
  if Bool.eqb before (authed st) then st else effect_authed w st.

(** [useEffect(..., [])]: the handling of the provider's redirect, up to
    the settling of the exchange it may start. *)
Definition effect_redirect
  (server : Request -> FetchResult TokenPayload)
  (st : AppState) (w : Browser) : AppState * Browser :=
  let params := location_search w in
  let code := Url.get "code" params in
  let error := Url.get "error" params in
  match error with
  | Some (String _ _ as error) =>
      ({| authed := authed st;
          authError := error;
          userLabel := userLabel st |}, w)
  | _ =>
      match code with
      | Some (String _ _ as code) =>
          let '(r, w') := exchangeCodeForTokens server config code w in
          let st' :=
            match r with
            | Returned true =>
                {| authed := true;
                   authError := "";
                   userLabel := getUserLabel JSON_parse w' |}
            | Returned false => st
            | Thrown _ =>
                {| authed := authed st;
                   authError := "Token exchange failed";
                   userLabel := userLabel st |}
            end in
          (st', history_replaceState_pathname w')
      | _ => (st, w)
      end
  end.

(** A page load: first render, then the two effects, then the render that
    follows the settling of the exchange. *)
Definition App_mount (server : Request -> FetchResult TokenPayload)
  (w : Browser) : AppState * Browser :=
  let st := effect_authed w (App_initial w) in
  let '(st', w') := effect_redirect server st w in
  (after_render (authed st) w' st', w').


(** [buildLoginUrl(config)] on a page that may lack [crypto.subtle]: the
    verifier is drawn, then [crypto.subtle.digest] is a read of a property
    of [undefined], before anything is stored. *)
Definition buildLoginUrl_on (platform : Platform) (entropy : nat -> byte)
  : M string :=
  if subtle_available platform then buildLoginUrl entropy config
  else
    let* _ := settled (randomVerifier entropy 64) in
    throw TypeError_undefined.

(** [window.location.assign(url)] for a string the URL parser may refuse. *)
Definition location_assign_on (platform : Platform) (target : string)
  : M unit :=
  if url_parses platform target then location_assign target
  else throw SyntaxError.

(** [onClick] of the "Log in with Cognito" button, rendered when not
    [authed]: [buildLoginUrl(config).then(assign).catch(setAuthError)]. *)
Definition login_click (platform : Platform) (entropy : nat -> byte)
  (st : AppState) (w : Browser) : AppState * Browser :=
  if negb (hasConfig config) then (st, w)
  else
    match (let* target := buildLoginUrl_on platform entropy in
           location_assign_on platform target) w with
    | (Returned _, w') => (st, w')
    | (Thrown _, w') =>
        ({| authed := authed st;
            authError := "Unable to start login";
            userLabel := userLabel st |}, w')
    end.



End App.

(** ** The upload form (the [DefaultApp] of the transcription page,
    App.tsx, lines 476-558) *)

(** A JSON number, as the decimal it is written as. *)
Record number := { mantissa : Z; exponent10 : Z }.

Record TranscriptSegment := {
  seg_start : number;
  seg_end : number;
  seg_text : string;
}.

Record TranscriptResponse := {
  text : string;
  language : option string;
  segments : list TranscriptSegment;
}.

(** The parsed body of the transcription endpoint's answer, as each of the
    two casts of [handleSubmit] types it. *)
Record TranscribeBody := {
  detail : option string;        (* as { detail?: string } *)
  transcript : TranscriptResponse; (* as TranscriptResponse *)
}.

Record UploadState := {
  file : option File;
  language_hint : string;
  isSubmitting : bool;
  error : string;
  result : option TranscriptResponse;
}.

Module Trim.

(** White space and line terminators of the Latin-1 range. *)
Definition is_space (c : ascii) : bool :=
  match N_of_ascii c with
  | 9 | 10 | 11 | 12 | 13 | 32 | 160 => true
  | _ => false
  end%N.

Fixpoint trimStart (s : string) : string :=
  match s with
  | String c r => if is_space c then trimStart r else s
  | EmptyString => EmptyString
  end.

(** [s.trim()] *)
Definition trim (s : string) : string :=
  String.rev (trimStart (String.rev (trimStart s))).

End Trim.

Definition transcribe_request (f : File) (language : string) : Request :=
  let params :=
    if JsString.truthy (Trim.trim language)
    then [("language", Trim.trim language)] else [] in
  let query := Url.serialize params in
  {| url :=
       if JsString.truthy query
       then "/api/transcribe/segment?" +:+ query
       else "/api/transcribe/segment";
     method := "POST";
     headers := [];
     body := FormDataBody [("file", f)] |}.

(** [handleSubmit], from the click to the settling of the request.
    [event.preventDefault()] touches nothing that is modelled here. *)
Definition handleSubmit (server : Request -> FetchResult TranscribeBody)
  (st : UploadState) (w : Browser) : UploadState * Browser :=
  match file st with
  | None => (st, w)
  | Some f =>
      if isSubmitting st then (st, w)
      else
        (* setIsSubmitting(true); setError(''); setResult(null) *)
        let set_error (message : string) : UploadState :=
          {| file := file st; language_hint := language_hint st;
             isSubmitting := true; error := message; result := None |} in
        let set_result (payload : option TranscriptResponse) : UploadState :=
          {| file := file st; language_hint := language_hint st;
             isSubmitting := true; error := ""; result := payload |} in
        let attempt : M UploadState :=
          let* response :=
            fetch server (transcribe_request f (language_hint st)) in
          if negb (ok response) then
            let* message :=
              try_catch
                (let* payload := response_json response in
                 match payload with
                 | None => throw TypeError_null
                 | Some payload =>
                     ret (js_or_string (detail payload)
                            "Transcription failed")
                 end)
                (fun _ => ret "Transcription failed") in
            ret (set_error message)
          else
            let* payload := response_json response in
            ret (set_result (option_map transcript payload)) in
        let '(st', w') :=
          catch_all attempt
            (fun err =>
               set_error
                 match err with
                 | Error message => message
                 | NotAnError => "Unable to reach the API"
                 end) w in
        (* finally: setIsSubmitting(false) *)
        ({| file := file st'; language_hint := language_hint st';
            isSubmitting := false; error := error st';
            result := result st' |}, w')
  end.

Definition handleReset (st : UploadState) : UploadState :=
  {| file := None; language_hint := ""; isSubmitting := isSubmitting st;
     error := ""; result := None |}.

(** The status line under the form. *)
Definition statusMessage (st : UploadState) : string :=
  if isSubmitting st then "Transcribing..."
  else if JsString.truthy (error st) then error st
  else
    match result st with
    | Some _ => "Transcription complete"
    | None => ""
    end.

(** ** Two readings of "the first of the claims", to compare [getUserLabel]
    with *)

Definition claim_keys : list string :=
  ["name"; "given_name"; "email"; "cognito:username"; "preferred_username";
   "username"].

(** The value of the first claim that is present, whatever it is; the empty
    string when none is. *)
Fixpoint first_present (keys : list string) (decoded : gmap string string)
  : string :=
  match keys with
  | [] => ""
  | k :: r =>
      match decoded !! k with
      | Some v => v
      | None => first_present r decoded
      end
  end.

(** The value of the first claim that is present and not empty; the empty
    string when none is. *)
Fixpoint first_nonempty (keys : list string) (decoded : gmap string string)
  : string :=
  match keys with
  | [] => ""
  | k :: r =>
      match decoded !! k with
      | Some (String c v) => String c v
      | _ => first_nonempty r decoded
      end
  end.

(** ** Concrete surroundings, for running the program on examples *)

Module Sample.

Definition config : AuthConfig :=
  {| domain := "auth.example.com";
     clientId := "client-1";
     redirectUri := "https://app.example.com/";
     logoutUri := "https://app.example.com/";
     scope := "openid email profile";
     authority := None |}.

(** A freshly loaded page over the given storage and query string. *)
Definition browser (local session : gmap string string)
  (search : list (string * string)) : Browser :=
  {| localStorage := local;
     sessionStorage := session;
     location_search := search;
     network := [];
     navigation := [] |}.

(** A server that gives every request the same answer. *)
Definition answers {A : Type} (code : N) (parsed : outcome (option A))
  : Request -> FetchResult A :=
  fun _ => FetchResolves {| status := code; json := parsed |}.

(** A generator of bytes. *)
Definition entropy (i : nat) : byte :=
  Url.byte_of_N (N.of_nat (i * 37 + 11)).

Definition quote : N := 34.
Definition has_code (n : N) (c : ascii) : bool := (N_of_ascii c =? n)%N.

(** The characters of a JSON string without escapes, up to its closing
    quote, and what follows. *)
Fixpoint read_string (acc : string) (l : list ascii)
  : option (string * list ascii) :=
  match l with
  | [] => None
  | c :: r =>
      if has_code quote c then Some (String.rev acc, r)
      else if has_code 92 c || (N_of_ascii c <? 32)%N then None
      else read_string (String c acc) r
  end.

Fixpoint read_members (fuel : nat) (acc : gmap string string)
  (l : list ascii) : option (gmap string string) :=
  match fuel, l with
  | S k, q :: r =>
      if has_code quote q then
        match read_string EmptyString r with
        | Some (key, colon :: q' :: r') =>
            if has_code 58 colon && has_code quote q' then
              match read_string EmptyString r' with
              | Some (value, [close]) =>
                  if has_code 125 close then Some (<[key := value]> acc)
                  else None
              | Some (value, comma :: r'') =>
                  if has_code 44 comma
                  then read_members k (<[key := value]> acc) r''
                  else None
              | _ => None
              end
            else None
        | _ => None
        end
      else None
  | _, _ => None
  end.

(** A parser for the JSON texts that are [null] or an object whose members
    are strings without escapes, written without white space. On these it
    returns what [JSON.parse] returns; every other text it reports as a
    syntax error. It stands for [JSON.parse] in the examples. *)
Definition JSON_parse (text : string)
  : outcome (option (gmap string string)) :=
  if String.eqb text "null" then Returned None
  else
    match list_ascii_of_string text with
    | open :: r =>
        if has_code 123 open then
          match r with
          | [close] =>
              if has_code 125 close then Returned (Some ∅)
              else Thrown (Error "SyntaxError")
          | _ =>
              match read_members (List.length r) ∅ r with
              | Some o => Returned (Some o)
              | None => Thrown (Error "SyntaxError")
              end
          end
        else Thrown (Error "SyntaxError")
    | [] => Thrown (Error "SyntaxError")
    end.

End Sample.

(** ** The rest of the file: configuration, file selection, audio preview *)

(** [getAuthConfig] (App.tsx, lines 17-27). [env] is [import.meta.env], each
    variable a string or undefined; [origin] is [window.location.origin].
    [a ?? b] is [b] only when [a] is undefined. *)
Definition getAuthConfig (env : gmap string string) (origin : string)
  : AuthConfig :=
  {| domain := default "" (env !! "VITE_COGNITO_DOMAIN");
     clientId := default "" (env !! "VITE_COGNITO_CLIENT_ID");
     redirectUri := default origin (env !! "VITE_COGNITO_REDIRECT_URI");
     logoutUri := default origin (env !! "VITE_COGNITO_LOGOUT_URI");
     scope := default "openid email profile" (env !! "VITE_COGNITO_SCOPE");
     authority := env !! "VITE_COGNITO_AUTHORITY" |}.

(** The characters of base64url text. *)
Definition base64url_alphabet : list ascii :=
  list_ascii_of_string
    "ABCDEFGHIJKLMNOPQRSTUVWXYZabcdefghijklmnopqrstuvwxyz0123456789-_".

(** [onChange] of the file input (App.tsx, lines 603-608); [files] is
    [event.target.files], a list of files or [null]. *)
Definition handleFileChange (files : option (list File)) (st : UploadState)
  : UploadState :=
  (* const [next] = event.target.files ?? [] *)
  let next := head (default [] files) in
  {| file := next; language_hint := language_hint st;
     isSubmitting := isSubmitting st; error := ""; result := None |}.

(** [onChange] of the language input (App.tsx, line 619). *)
Definition handleLanguageChange (value : string) (st : UploadState)
  : UploadState :=
  {| file := file st; language_hint := value;
     isSubmitting := isSubmitting st; error := error st;
     result := result st |}.

(** The object URLs of the document: those created and not revoked since,
    and how many have been created. *)
Record ObjectUrls := { live : list string; created : nat }.

(** [URL.createObjectURL(file)]: a URL that was not given out before. *)
Definition createObjectURL (f : File) (u : ObjectUrls)
  : string * ObjectUrls :=
  let target := "blob:" +:+ pretty (created u) in
  (target, {| live := target :: live u; created := S (created u) |}).

(** [URL.revokeObjectURL(url)] *)
Definition revokeObjectURL (target : string) (u : ObjectUrls) : ObjectUrls :=
  {| live := List.filter (fun x => negb (String.eqb x target)) (live u);
     created := created u |}.

(** The preview of the upload form: the [previewUrl] state, and the URL that
    the cleanup returned by the last run of the effect will revoke. *)
Record Preview := { previewUrl : string; cleanup : option string }.

(** [useState('')], before any effect has run. *)
Definition Preview_initial : Preview :=
  {| previewUrl := ""; cleanup := None |}.

Definition run_cleanup (p : Preview) (u : ObjectUrls) : ObjectUrls :=
  match cleanup p with
  | Some target => revokeObjectURL target u
  | None => u
  end.

(** [useEffect(..., [file])] (App.tsx, lines 485-495), run after a render in
    which [file] has changed: the cleanup of the previous run, then the
    body. *)
Definition effect_file (f : option File) (p : Preview) (u : ObjectUrls)
  : Preview * ObjectUrls :=
  let u := run_cleanup p u in
  match f with
  | None => ({| previewUrl := ""; cleanup := None |}, u)
  | Some f =>
      let '(target, u) := createObjectURL f u in
      ({| previewUrl := target; cleanup := Some target |}, u)
  end.

(** The effect over the successive values of [file]. *)
Fixpoint effect_files (fs : list (option File)) (p : Preview)
  (u : ObjectUrls) : Preview * ObjectUrls :=
  match fs with
  | [] => (p, u)
  | f :: r => let '(p', u') := effect_file f p u in effect_files r p' u'
  end.

(** Unmounting the component runs the cleanup of the last run. *)
Definition unmount (p : Preview) (u : ObjectUrls) : ObjectUrls :=
  run_cleanup p u.

(** * Theorems *)

(** ** Strings and their character lists *)

Section StringFacts.

Import JsString.

Lemma append_nil (t : string) : EmptyString +:+ t = t.
Proof. reflexivity. Qed.

Lemma append_cons (x : ascii) (s t : string) :
  String x s +:+ t = String x (s +:+ t).
Proof. reflexivity. Qed.

Lemma length_str (l : list ascii) : String.length (str l) = List.length l.
Proof. induction l as [|x l IH]; simpl; [reflexivity | now rewrite IH]. Qed.

Lemma str_app (l k : list ascii) : str (l ++ k) = str l +:+ str k.
Proof.
  induction l as [|x l IH]; simpl; [reflexivity|].
  now rewrite append_cons, IH.
Qed.

Lemma str_repeat (c : ascii) (n : nat) : str (repeat c n) = repeat_char c n.
Proof. induction n as [|n IH]; simpl; [reflexivity | now rewrite IH]. Qed.

Lemma append_empty_r (s : string) : s +:+ EmptyString = s.
Proof.
  induction s as [|x s IH]; [reflexivity|].
  now rewrite append_cons, IH.
Qed.

Lemma append_assoc (s t u : string) : (s +:+ t) +:+ u = s +:+ (t +:+ u).
Proof.
  induction s as [|x s IH]; [reflexivity|].
  now rewrite !append_cons, IH.
Qed.

Lemma length_append (s t : string) :
  String.length (s +:+ t) = (String.length s + String.length t)%nat.
Proof.
  induction s as [|x s IH]; [reflexivity|].
  rewrite append_cons. simpl. now rewrite IH.
Qed.

Lemma replaceAll_str (c d : ascii) (l : list ascii) :
  replaceAll c d (str l)
  = str (map (fun x => if Ascii.eqb x c then d else x) l).
Proof. induction l as [|x l IH]; simpl; [reflexivity | now rewrite IH]. Qed.

Lemma all_char_repeat (c : ascii) (n : nat) :
  all_char c (repeat_char c n) = true.
Proof.
  induction n as [|n IH]; simpl; [reflexivity|].
  now rewrite Ascii.eqb_refl, IH.
Qed.

(** Cutting the trailing run of [c] off a string that has no [c] before
    that run leaves the part before it. *)
Lemma replaceTrailingRun_str (c : ascii) (l : list ascii) (n : nat) :
  Forall (fun x => x <> c) l ->
  replaceTrailingRun c (str l +:+ repeat_char c n) = str l.
Proof.
  induction 1 as [|x l Hx Hl IH].
  - rewrite append_nil. destruct n as [|n]; simpl; [reflexivity|].
    now rewrite Ascii.eqb_refl, all_char_repeat.
  - apply Ascii.eqb_neq in Hx. simpl str. rewrite append_cons. simpl.
    rewrite Hx. simpl. now rewrite IH.
Qed.

(** The loop of [base64UrlEncode] builds the binary string of the bytes. *)
Lemma binary_fold (buffer : list byte) (acc : string) :
  fold_left (fun acc b => acc +:+ fromCharCode b) buffer acc
  = acc +:+ string_of_list_byte buffer.
Proof.
  revert acc. induction buffer as [|b l IH]; intros acc; simpl.
  - now rewrite append_empty_r.
  - rewrite IH, append_assoc. reflexivity.
Qed.

End StringFacts.

(** ** Base64: decoding inverts encoding *)

Section Base64Facts.

Import Base64.
Local Open Scope N_scope.

(** Induction over a list three elements at a time. *)
Lemma list_ind3 {A : Type} (P : list A -> Prop) :
  P [] -> (forall a, P [a]) -> (forall a b, P [a; b]) ->
  (forall a b c r, P r -> P (a :: b :: c :: r)) ->
  forall l, P l.
Proof.
  intros H0 H1 H2 H3 l.
  enough (P l /\ (forall a, P (a :: l)) /\ (forall a b, P (a :: b :: l)))
    by tauto.
  induction l as [|x l (IH0 & IH1 & IH2)]; [auto|].
  repeat split; auto.
Qed.

Ltac euclid := zify; Z.to_euclidean_division_equations; lia.

Lemma first_octet (a b : N) : b < 256 ->
  a / 4 * 4 + (a mod 4 * 16 + b / 16) / 16 = a.
Proof. intros. euclid. Qed.

Lemma second_octet (a b c : N) : b < 256 -> c < 256 ->
  (a mod 4 * 16 + b / 16) mod 16 * 16 + (b mod 16 * 4 + c / 64) / 4 = b.
Proof. intros. euclid. Qed.

Lemma third_octet (b c : N) : c < 256 ->
  (b mod 16 * 4 + c / 64) mod 4 * 64 + c mod 64 = c.
Proof. intros. euclid. Qed.

Lemma octets_sextets (l : list N) :
  Forall (fun n => n < 256) l -> octets (sextets l) = l.
Proof.
  induction l as [|a|a b|a b c r IH] using list_ind3; intros H.
  - reflexivity.
  - simpl. f_equal. euclid.
  - inversion H as [|? ? Ha Hr]; subst. inversion Hr as [|? ? Hb _]; subst.
    simpl. f_equal; [now apply first_octet|]. f_equal. euclid.
  - inversion H as [|? ? Ha Hr]; subst. inversion Hr as [|? ? Hb Hr']; subst.
    inversion Hr' as [|? ? Hc Hr'']; subst.
    simpl. rewrite IH by assumption.
    now rewrite first_octet, second_octet, third_octet.
Qed.

Lemma sextets_bound (l : list N) :
  Forall (fun n => n < 256) l -> Forall (fun n => n < 64) (sextets l).
Proof.
  induction l as [|a|a b|a b c r IH] using list_ind3; intros H.
  - constructor.
  - inversion H; subst. simpl. repeat constructor; euclid.
  - inversion H as [|? ? Ha Hr]; subst. inversion Hr as [|? ? Hb _]; subst.
    simpl. repeat constructor; euclid.
  - inversion H as [|? ? Ha Hr]; subst. inversion Hr as [|? ? Hb Hr']; subst.
    inversion Hr' as [|? ? Hc Hr'']; subst.
    simpl. repeat (constructor; [euclid|]). now apply IH.
Qed.

(** A property of all 64 sextets is checked on each of them. *)
Lemma sextet_cases (P : N -> Prop) :
  (forall k, (k < 64)%nat -> P (N.of_nat k)) -> forall n, n < 64 -> P n.
Proof.
  intros H n Hn. rewrite <- (N2Nat.id n). apply H. lia.
Qed.

Ltac each_sextet :=
  apply sextet_cases; intros k Hk;
  do 64 (destruct k as [|k]; [vm_compute; repeat split; congruence|]);
  exfalso; lia.

Lemma sextet_of_char_of_sextet (n : N) :
  n < 64 -> sextet_of_char (char_of_sextet n) = Some n.
Proof. revert n. each_sextet. Qed.

(** An alphabet character is none of the characters the helpers touch. *)
Lemma char_of_sextet_plain (n : N) :
  n < 64 ->
  let c := char_of_sextet n in
  c <> "="%char /\ c <> "-"%char /\ c <> "_"%char
  /\ is_ascii_whitespace c = false.
Proof. revert n. each_sextet. Qed.

End Base64Facts.

Section Base64RoundTrip.

Import JsString Base64.

Lemma mod3_step (n : nat) : (S (S (S n)) mod 3 = n mod 3)%nat.
Proof.
  replace (S (S (S n))) with (n + 1 * 3)%nat by lia.
  apply Nat.Div0.mod_add.
Qed.

Lemma mod4_step (n : nat) : (S (S (S (S n))) mod 4 = n mod 4)%nat.
Proof.
  replace (S (S (S (S n)))) with (n + 1 * 4)%nat by lia.
  apply Nat.Div0.mod_add.
Qed.

(** How the number of sextets follows the number of octets. *)
Lemma sextets_length (l : list N) :
  let n := List.length l in
  let m := List.length (sextets l) in
  (n mod 3 = 0 /\ m mod 4 = 0 \/ n mod 3 = 1 /\ m mod 4 = 2
   \/ n mod 3 = 2 /\ m mod 4 = 3)%nat.
Proof.
  induction l as [|a|a b|a b c r IH] using list_ind3; cbv zeta.
  - left. split; reflexivity.
  - right; left. split; reflexivity.
  - right; right. split; reflexivity.
  - cbn [sextets List.length]. rewrite mod3_step, mod4_step. exact IH.
Qed.

(** The filler [base64UrlDecode] asks [padEnd] for is the padding [btoa]
    had produced. *)
Lemma padding_restored (l : list N) :
  let m := List.length (sextets l) in
  repeat "="%char ((4 - m mod 4) mod 4) = padding (List.length l).
Proof.
  cbv zeta. unfold padding.
  destruct (sextets_length l) as [[-> ->]|[[-> ->]|[-> ->]]]; reflexivity.
Qed.

Lemma all_sextets_chars (ss : list N) :
  Forall (fun n => (n < 64)%N) ss ->
  all_sextets (map char_of_sextet ss) = Some ss.
Proof.
  induction 1 as [|n ss Hn _ IH]; simpl; [reflexivity|].
  now rewrite sextet_of_char_of_sextet, IH.
Qed.

Lemma filter_all {A : Type} (f : A -> bool) (l : list A) :
  Forall (fun x => f x = true) l -> List.filter f l = l.
Proof.
  induction 1 as [|x l Hx _ IH]; simpl; [reflexivity|].
  now rewrite Hx, IH.
Qed.

Lemma strip_padding_encode (ss : list N) (k : nat) :
  Forall (fun n => (n < 64)%N) ss ->
  (k <= 2)%nat ->
  ((List.length ss + k) mod 4 = 0)%nat ->
  strip_padding (map char_of_sextet ss ++ repeat "="%char k)
  = map char_of_sextet ss.
Proof.
  intros Hss Hk Hlen. unfold strip_padding.
  rewrite length_app, length_map, repeat_length, Hlen. simpl Nat.eqb.
  cbv iota. rewrite rev_app_distr.
  assert (Hlast : forall c r, rev (map char_of_sextet ss) = c :: r ->
                              Ascii.eqb c "=" = false).
  { intros c r Hr. apply Ascii.eqb_neq.
    assert (Hin : In c (map char_of_sextet ss)).
    { apply in_rev. rewrite Hr. now left. }
    apply in_map_iff in Hin as (n & <- & Hn).
    rewrite Forall_forall in Hss.
    apply (char_of_sextet_plain n). apply Hss.
    now apply list_elem_of_In. }
  destruct k as [|[|[|k]]]; [| | |lia]; simpl.
  - rewrite app_nil_r.
    destruct (rev (map char_of_sextet ss)) as [|c [|d r]] eqn:E;
      try reflexivity; now rewrite (Hlast _ _ eq_refl).
  - destruct (rev (map char_of_sextet ss)) as [|c r] eqn:E.
    + destruct ss; [discriminate Hlen|].
      apply (f_equal (@List.length _)) in E.
      rewrite length_rev in E. discriminate E.
    + rewrite (Hlast _ _ eq_refl).
      change (rev (c :: r) = map char_of_sextet ss).
      rewrite <- E. apply rev_involutive.
  - apply rev_involutive.
Qed.

(** [atob] inverts [btoa] on octet lists. *)
Lemma decode_encode (l : list N) :
  Forall (fun n => (n < 256)%N) l -> decode (encode l) = Some l.
Proof.
  intros Hl. pose proof (sextets_bound l Hl) as Hss.
  unfold decode, encode.
  rewrite filter_all.
  2:{ apply Forall_app; split.
      - apply Forall_forall. intros c Hc.
        apply list_elem_of_In, in_map_iff in Hc as (n & <- & Hn).
        rewrite Forall_forall in Hss.
        apply list_elem_of_In, Hss in Hn.
        now destruct (char_of_sextet_plain n Hn) as (_ & _ & _ & ->).
      - apply Forall_forall. intros c Hc.
        apply list_elem_of_In, repeat_spec in Hc. now subst c. }
  assert (Hpad : (((3 - List.length l mod 3) mod 3 <= 2)
                  /\ (List.length (sextets l)
                      + (3 - List.length l mod 3) mod 3) mod 4 = 0
                  /\ List.length (sextets l) mod 4 <> 1)%nat).
  { pose proof (sextets_length l) as H. cbv zeta in H.
    destruct H as [[-> H]|[[-> H]|[-> H]]];
      (split; [simpl; lia|split; [|rewrite H; discriminate]]);
      rewrite Nat.Div0.add_mod, H; reflexivity. }
  destruct Hpad as (Hk & Hlen & Hne).
  unfold padding. rewrite strip_padding_encode by assumption.
  rewrite length_map. apply Nat.eqb_neq in Hne. rewrite Hne.
  rewrite all_sextets_chars by assumption. simpl.
  now rewrite octets_sextets.
Qed.

Lemma atob_btoa (s : string) : atob (btoa s) = Some s.
Proof.
  unfold atob, btoa. rewrite list_ascii_of_string_of_list_ascii.
  rewrite decode_encode.
  - simpl. rewrite map_map.
    rewrite (map_ext _ (fun a => a)) by apply ascii_N_embedding.
    now rewrite map_id, string_of_list_ascii_of_string.
  - apply Forall_forall. intros n Hn.
    apply list_elem_of_In, in_map_iff in Hn as (a & <- & _).
    apply N_ascii_bounded.
Qed.

End Base64RoundTrip.

(** ** The base64url helpers of the program *)

Section Base64Url.

Import JsString Base64.

Local Abbreviation swap c d :=
  (fun x : ascii => if Ascii.eqb x c then d else x) (only parsing).
Local Abbreviation to_url c := (swap "/" "_" (swap "+" "-" c))%char
  (only parsing).
Local Abbreviation of_url c := (swap "_" "/" (swap "-" "+" c))%char
  (only parsing).
Local Abbreviation octets_of buffer :=
  (map N_of_ascii (chars (string_of_list_byte buffer))) (only parsing).

Lemma buffer_sextet_bound (buffer : list byte) (n : N) :
  In n (sextets (octets_of buffer)) -> (n < 64)%N.
Proof.
  intros Hn.
  assert (Hb : Forall (fun n => (n < 64)%N) (sextets (octets_of buffer))).
  { apply sextets_bound, Forall_forall. intros m Hm.
    apply list_elem_of_In, in_map_iff in Hm as (a & <- & _).
    apply N_ascii_bounded. }
  rewrite Forall_forall in Hb. now apply Hb, list_elem_of_In.
Qed.

Lemma url_char (n : N) :
  (n < 64)%N ->
  to_url (char_of_sextet n) <> "="%char
  /\ of_url (to_url (char_of_sextet n)) = char_of_sextet n.
Proof.
  revert n. apply sextet_cases. intros k Hk.
  do 64 (destruct k as [|k]; [vm_compute; split; congruence|]).
  exfalso; lia.
Qed.

Lemma swap_padding (c d : ascii) (k : nat) :
  c <> "="%char -> map (swap c d) (repeat "="%char k) = repeat "="%char k.
Proof.
  intros Hc. rewrite map_repeat.
  destruct (Ascii.eqb_spec "=" c) as [E|_]; [now symmetry in E|reflexivity].
Qed.

(** What [base64UrlEncode] returns: the sextets of the buffer in the URL
    alphabet, without padding. *)
Lemma base64UrlEncode_chars (buffer : list byte) :
  base64UrlEncode buffer
  = str (map (fun c => to_url c)
           (map char_of_sextet (sextets (octets_of buffer)))).
Proof.
  unfold base64UrlEncode. rewrite binary_fold, append_nil.
  unfold btoa, encode, padding.
  rewrite !replaceAll_str, !map_app, !swap_padding by discriminate.
  rewrite map_map, str_app, str_repeat.
  apply replaceTrailingRun_str.
  apply Forall_forall. intros u Hu.
  apply list_elem_of_In, in_map_iff in Hu as (c & <- & Hc).
  apply in_map_iff in Hc as (n & <- & Hn).
  apply url_char. now apply (buffer_sextet_bound buffer).
Qed.

Lemma base64UrlEncode_length (buffer : list byte) :
  String.length (base64UrlEncode buffer)
  = List.length (sextets (octets_of buffer)).
Proof.
  now rewrite base64UrlEncode_chars, length_str, !length_map.
Qed.

(** Padding again and undoing the two substitutions gives back what [btoa]
    had returned. *)
Lemma normalized_is_btoa (buffer : list byte) :
  let value := base64UrlEncode buffer in
  let len := JsString.length value in
  replaceAll "_" "/"
    (replaceAll "-" "+"
       (padEnd value (len + (4 - len mod 4) mod 4) "="))
  = btoa (string_of_list_byte buffer).
Proof.
  cbv zeta. unfold padEnd, JsString.length.
  rewrite base64UrlEncode_length.
  replace (_ + _ - _)%nat
    with ((4 - List.length (sextets (octets_of buffer)) mod 4) mod 4)%nat
    by lia.
  rewrite base64UrlEncode_chars, <- str_repeat, <- str_app.
  rewrite !replaceAll_str, !map_app, !swap_padding by discriminate.
  rewrite padding_restored. unfold btoa, encode. do 2 f_equal.
  rewrite !map_map. apply map_ext_in. intros n Hn.
  apply url_char. now apply (buffer_sextet_bound buffer).
Qed.

(** C9. Decoding what [base64UrlEncode] made of a byte array gives the
    binary string whose character codes are the bytes of the array: padding
    again and undoing the two character substitutions gives back what
    [btoa] had returned, which [atob] decodes. *)
Theorem base64Url_round_trip (b : list byte) :
  base64UrlDecode (base64UrlEncode b) = Some (string_of_list_byte b)
  /\ list_byte_of_string (string_of_list_byte b) = b
  /\ String.length (string_of_list_byte b) = List.length b.
Proof.
  split; [|split].
  - unfold base64UrlDecode.
    rewrite (normalized_is_btoa b). apply atob_btoa.
  - apply list_byte_of_string_of_list_byte.
  - unfold string_of_list_byte. now rewrite length_str, length_map.
Qed.

Lemma sextets_nonempty (l : list N) : l <> [] -> sextets l <> [].
Proof. destruct l as [|a [|b [|c r]]]; simpl; congruence. Qed.

(** A non-empty buffer encodes to a non-empty string. *)
Lemma base64UrlEncode_nonempty (buffer : list byte) :
  buffer <> [] -> base64UrlEncode buffer <> EmptyString.
Proof.
  intros Hb He. apply (f_equal String.length) in He.
  rewrite base64UrlEncode_length in He.
  destruct buffer as [|b r]; [congruence|].
  now destruct (sextets (octets_of (b :: r))) eqn:E;
    [apply sextets_nonempty in E|].
Qed.

Lemma url_char_unreserved (n : N) :
  (n < 64)%N ->
  Url.encode_bytes (Url.utf8_char (to_url (char_of_sextet n)))
  = String (to_url (char_of_sextet n)) EmptyString.
Proof.
  revert n. apply sextet_cases. intros k Hk.
  do 64 (destruct k as [|k]; [vm_compute; reflexivity|]).
  exfalso; lia.
Qed.

(** The URL query serialiser leaves base64url text as it is. *)
Lemma urlencode_base64UrlEncode (buffer : list byte) :
  Url.urlencode (base64UrlEncode buffer) = base64UrlEncode buffer.
Proof.
  rewrite base64UrlEncode_chars, map_map.
  pose proof (buffer_sextet_bound buffer) as Hb.
  induction (sextets (octets_of buffer)) as [|n ss IH]; [reflexivity|].
  simpl. rewrite url_char_unreserved by (apply Hb; now left).
  rewrite append_cons, append_nil. f_equal.
  apply IH. intros m Hm. apply Hb. now right.
Qed.

End Base64Url.

(** ** The code exchange *)

Section Exchange.

Variable server : Request -> FetchResult TokenPayload.
Variable config : AuthConfig.
Variable code : string.

Lemma truthy_nonempty (s : string) :
  JsString.truthy s = true <-> s <> EmptyString.
Proof. destruct s; simpl; split; congruence. Qed.

Lemma isAuthenticated_or (w : Browser) :
  isAuthenticated w
  = JsString.truthy_opt (localStorage w !! "cognito_id_token")
    || JsString.truthy_opt (localStorage w !! "cognito_access_token").
Proof.
  unfold isAuthenticated, js_or.
  now destruct (JsString.truthy_opt (localStorage w !! "cognito_id_token"))
    eqn:E.
Qed.

(** The browser after a successful exchange whose answer is [p]. *)
Local Abbreviation stored key token w :=
  (if JsValue.truthy_opt token
   then set_localStorage (<[key := from_option JsValue.ToString EmptyString
                                     token]>
                            (localStorage w)) w
   else w) (only parsing).

Lemma store_token_run (key : string) (token : option JsValue)
  (w : Browser) :
  store_token key token w = (Returned tt, stored key token w).
Proof.
  unfold store_token. destruct token as [t|]; simpl; [|reflexivity].
  destruct (JsValue.truthy t); reflexivity.
Qed.

(** An empty array is truthy and converts to the empty string. *)
Example ToString_examples :
  JsValue.ToString (VArray []) = ""
  /\ JsValue.truthy (VArray []) = true
  /\ JsValue.ToString
       (VArray [VString "a"; VNull; VArray [VBool true; VString "b"]])
     = "a,,true,b"
  /\ JsValue.ToString (VObject [("a", VNull)]) = "[object Object]"
  /\ JsValue.truthy (VString "") = false
  /\ storable (Some (VArray [])) = false
  /\ storable (Some (VString "")) = true.
Proof. repeat split. Qed.

(** Every string token is storable. *)
Lemma storable_string (s : string) : storable (Some (VString s)) = true.
Proof. cbn. now destruct (JsString.truthy s). Qed.


(** Without a usable verifier the call throws at once. *)
Lemma exchange_missing (w : Browser) :
  JsString.truthy_opt (sessionStorage w !! CODE_VERIFIER_KEY) = false ->
  exchangeCodeForTokens server config code w
  = (Thrown (Error "Missing PKCE code verifier"), w).
Proof.
  intros H. unfold exchangeCodeForTokens, bind, Storage.getItem_session.
  destruct (sessionStorage w !! CODE_VERIFIER_KEY) as [v|]; [|reflexivity].
  simpl in H. rewrite H. reflexivity.
Qed.

(** With a verifier, what the call does is decided by the answer to the
    one request it sends. *)
Lemma exchange_sent (w : Browser) (verifier : string) :
  sessionStorage w !! CODE_VERIFIER_KEY = Some verifier ->
  verifier <> EmptyString ->
  let req := token_request config code verifier in
  let w1 := log_request req w in
  exchangeCodeForTokens server config code w
  = match server req with
    | FetchRejects e => (Thrown e, w1)
    | FetchResolves r =>
        if ok r then
          match json r with
          | Thrown e => (Thrown e, w1)
          | Returned None => (Thrown TypeError_null, w1)
          | Returned (Some p) =>
              let w2 := stored "cognito_id_token" (id_token p) w1 in
              let w3 := stored "cognito_access_token" (access_token p) w2 in
              (Returned (JsValue.truthy_opt
                           (JsValue.or (id_token p) (access_token p))),
               set_sessionStorage
                 (delete CODE_VERIFIER_KEY (sessionStorage w3)) w3)
          end
        else (Thrown (Error "Token exchange failed"), w1)
    end.
Proof.
  intros Hv Hne. apply truthy_nonempty in Hne. cbv zeta.
  unfold exchangeCodeForTokens, bind at 1, Storage.getItem_session.
  rewrite Hv, Hne. cbn [negb]. unfold bind at 1, fetch.
  destruct (server _) as [e|r]; [reflexivity|].
  destruct (ok r); cbn [negb]; [|reflexivity].
  unfold bind at 1, response_json.
  destruct (json r) as [[p|]|e]; try reflexivity.
  unfold bind. rewrite !store_token_run. reflexivity.
Qed.

(** C2. With no verifier in session storage under [cognito_pkce_verifier]
    (or an empty one), [exchangeCodeForTokens] throws and sends no
    request: the browser, its request log included, is as before. *)
Theorem exchange_without_verifier (w : Browser) :
  sessionStorage w !! "cognito_pkce_verifier" = None
  \/ sessionStorage w !! "cognito_pkce_verifier" = Some EmptyString ->
  exists e w',
    exchangeCodeForTokens server config code w = (Thrown e, w')
    /\ network w' = network w
    /\ w' = w.
Proof.
  intros H. exists (Error "Missing PKCE code verifier"), w.
  repeat split. apply exchange_missing.
  unfold CODE_VERIFIER_KEY. destruct H as [-> | ->]; reflexivity.
Qed.




End Exchange.

Section ExchangeSuccess.

Variable server : Request -> FetchResult TokenPayload.
Variable config : AuthConfig.
Variable code : string.


End ExchangeSuccess.



Lemma exchange_without_verifier_witness :
  let w := Sample.browser ∅ ∅ [("code", "code-1")] in
  sessionStorage w !! "cognito_pkce_verifier" = None
  /\ exists e w',
      exchangeCodeForTokens (Sample.answers 200 (Returned None))
        Sample.config "code-1" w = (Thrown e, w')
      /\ network w' = network w
      /\ w' = w.
Proof.
  split; [reflexivity|].
  apply (exchange_without_verifier (Sample.answers 200 (Returned None))
           Sample.config "code-1").
  left. reflexivity.
Defined.


(** ** Starting a login *)

(** The verifier of the default length that [entropy] gives. *)
Local Abbreviation drawn entropy :=
  (base64UrlEncode (imap (fun i _ => entropy i) (new_Uint8Array 64)))
  (only parsing).

Section Login.

(** The example of RFC 7636, appendix B. *)
Example createCodeChallenge_rfc7636 :
  createCodeChallenge "dBjftJeZ4CVP-mB92K27uhbUJU1p1r_wW1gFWFOEjXk"
  = "E9Melhoa2OwvFrEMTJguCHaoeK1t8URWbuGJSstw-cM".
Proof. vm_compute. reflexivity. Qed.

(** The digest of the three bytes [abc], FIPS 180-4's first example, in
    base64url. *)
Example sha256_abc :
  base64UrlEncode (Sha256.sha256 (list_byte_of_string "abc"))
  = "ungWv48Bz-pBQUDeXa4iI7ADYaOWF3qctBD_YfIAFa0".
Proof. vm_compute. reflexivity. Qed.

Lemma sha256_length (data : list byte) :
  List.length (Sha256.sha256 data) = 32%nat.
Proof.
  unfold Sha256.sha256.
  now destruct (Sha256.digest_words _) as [[[[[[[a b] c] d] e] f] g] h].
Qed.

Lemma serialize_snoc (entries : list (string * string)) (k v : string) :
  entries <> [] ->
  Url.serialize (entries ++ [(k, v)])
  = Url.serialize entries +:+ "&" +:+ Url.urlencode k +:+ "="
    +:+ Url.urlencode v.
Proof.
  induction entries as [|[k0 v0] r IH]; [congruence|]. intros _.
  destruct r as [|e r].
  - simpl. now rewrite !append_assoc.
  - specialize (IH ltac:(discriminate)).
    change (Url.serialize (((k0, v0) :: e :: r) ++ [(k, v)]))
      with (Url.urlencode k0 +:+ "=" +:+ Url.urlencode v0 +:+ "&"
            +:+ Url.serialize ((e :: r) ++ [(k, v)])).
    rewrite IH.
    change (Url.serialize ((k0, v0) :: e :: r))
      with (Url.urlencode k0 +:+ "=" +:+ Url.urlencode v0 +:+ "&"
            +:+ Url.serialize (e :: r)).
    now rewrite !append_assoc.
Qed.


(** The default length is within what [getRandomValues] fills. *)
Lemma randomVerifier_default (entropy : nat -> byte) :
  randomVerifier entropy 64 = Returned (drawn entropy).
Proof. reflexivity. Qed.

(** C1. For every config (no assumption on it is needed, so in particular
    for one with a non-empty domain and client id) [buildLoginUrl] returns
    a URL that ends in the query parameters
    [code_challenge=<challenge>&code_challenge_method=S256], where the
    challenge is not empty and is the base64url encoding, without
    padding, of the SHA-256 digest of exactly the verifier that the call
    has left in session storage under [cognito_pkce_verifier]. *)
Theorem buildLoginUrl_challenge (entropy : nat -> byte)
  (config : AuthConfig) (w : Browser) :
  exists (target verifier challenge : string) (w' : Browser),
    buildLoginUrl entropy config w = (Returned target, w')
    /\ sessionStorage w' !! "cognito_pkce_verifier" = Some verifier
    /\ challenge
       = base64UrlEncode (Sha256.sha256 (Url.TextEncoder_encode verifier))
    /\ challenge <> EmptyString
    /\ target
       = buildHostedUrl config "/oauth2/authorize" +:+ "?"
         +:+ Url.serialize
               [("client_id", clientId config);
                ("response_type", "code");
                ("scope", scope config);
                ("redirect_uri", redirectUri config)]
         +:+ "&code_challenge=" +:+ challenge
         +:+ "&code_challenge_method=S256".
Proof.
  unfold buildLoginUrl, bind, settled. rewrite randomVerifier_default.
  eexists _, (drawn entropy), _, _.
  split; [reflexivity|]. split; [apply lookup_insert_eq|].
  split; [reflexivity|]. split.
  - apply base64UrlEncode_nonempty. intros E.
    apply (f_equal (@List.length _)) in E.
    rewrite sha256_length in E. discriminate E.
  - f_equal. f_equal.
    change [("client_id", clientId config); ("response_type", "code");
            ("scope", scope config); ("redirect_uri", redirectUri config);
            ("code_challenge", createCodeChallenge (drawn entropy));
            ("code_challenge_method", "S256")]
      with (([("client_id", clientId config); ("response_type", "code");
              ("scope", scope config);
              ("redirect_uri", redirectUri config)]
             ++ [("code_challenge", createCodeChallenge (drawn entropy))])
            ++ [("code_challenge_method", "S256")]).
    rewrite !serialize_snoc by discriminate.
    unfold createCodeChallenge. rewrite urlencode_base64UrlEncode.
    rewrite !append_assoc. reflexivity.
Qed.

(** The verifier that a login leaves behind is not empty, so the exchange
    that follows finds it. *)
Lemma randomVerifier_nonempty (entropy : nat -> byte) (verifier : string) :
  randomVerifier entropy 64 = Returned verifier -> verifier <> EmptyString.
Proof.
  rewrite randomVerifier_default. intros [= <-].
  apply base64UrlEncode_nonempty. intros E.
  apply (f_equal (@List.length _)) in E. discriminate E.
Qed.

Lemma buildLoginUrl_verifier (entropy : nat -> byte) (config : AuthConfig)
  (w : Browser) :
  exists verifier,
    randomVerifier entropy 64 = Returned verifier
    /\ sessionStorage (snd (buildLoginUrl entropy config w))
         !! CODE_VERIFIER_KEY
       = Some verifier.
Proof.
  unfold buildLoginUrl, bind, settled. rewrite randomVerifier_default.
  eexists. split; [reflexivity|]. apply lookup_insert_eq.
Qed.

(** The URL that [buildLoginUrl] returns and the browser it leaves. *)
Lemma buildLoginUrl_run (entropy : nat -> byte) (config : AuthConfig)
  (w : Browser) :
  buildLoginUrl entropy config w
  = (Returned
       (buildHostedUrl config "/oauth2/authorize" +:+ "?"
        +:+ Url.serialize
              [("client_id", clientId config);
               ("response_type", "code");
               ("scope", scope config);
               ("redirect_uri", redirectUri config)]
        +:+ "&code_challenge="
        +:+ createCodeChallenge (drawn entropy)
        +:+ "&code_challenge_method=S256"),
     set_sessionStorage
       (<[CODE_VERIFIER_KEY := drawn entropy]> (sessionStorage w)) w).
Proof.
  unfold buildLoginUrl, bind at 1, settled. rewrite randomVerifier_default.
  unfold bind, Storage.setItem_session, ret.
  f_equal. f_equal. f_equal. f_equal.
  change [("client_id", clientId config); ("response_type", "code");
          ("scope", scope config); ("redirect_uri", redirectUri config);
          ("code_challenge", createCodeChallenge (drawn entropy));
          ("code_challenge_method", "S256")]
    with (([("client_id", clientId config); ("response_type", "code");
            ("scope", scope config);
            ("redirect_uri", redirectUri config)]
           ++ [("code_challenge", createCodeChallenge (drawn entropy))])
          ++ [("code_challenge_method", "S256")]).
  rewrite !serialize_snoc by discriminate.
  unfold createCodeChallenge. rewrite urlencode_base64UrlEncode.
  rewrite !append_assoc. reflexivity.
Qed.

End Login.

(** ** The [App] component *)

Section AppFacts.

Variable JSON_parse : string -> outcome (option (gmap string string)).
Variable config : AuthConfig.









(** What a login click does, by what the platform has. *)
Lemma login_click_run (platform : Platform) (entropy : nat -> byte)
  (st : AppState) (w : Browser) :
  let failed :=
    {| authed := authed st;
       authError := "Unable to start login";
       userLabel := userLabel st |} in
  login_click config platform entropy st w
  = if negb (hasConfig config) then (st, w)
    else if negb (subtle_available platform) then (failed, w)
    else
      match buildLoginUrl entropy config w with
      | (Returned target, w') =>
          if url_parses platform target
          then (st, log_navigation target w')
          else (failed, w')
      | (Thrown _, w') => (failed, w')
      end.
Proof.
  cbv zeta. unfold login_click, buildLoginUrl_on.
  destruct (hasConfig config); cbn [negb]; [|reflexivity].
  destruct (subtle_available platform); cbn [negb]; [|reflexivity].
  unfold bind at 1. destruct (buildLoginUrl entropy config w) as [[t|e] w'];
    [|reflexivity].
  unfold location_assign_on. now destruct (url_parses platform t).
Qed.






(** C4, as amended. On a page load whose query string has a non-empty
    [error] parameter, the error shown is that parameter's value and no
    exchange is attempted: no request is sent and the browser is as it
    was. The flag [authed] is [isAuthenticated()] of durable storage: the
    state is unauthenticated when no token is stored, and authenticated
    when one is. *)
Theorem page_load_with_error
  (server : Request -> FetchResult TokenPayload) (w : Browser)
  (value : string) :
  Url.get "error" (location_search w) = Some value ->
  value <> EmptyString ->
  exists st : AppState,
    App_mount JSON_parse config server w = (st, w)
    /\ authError st = value
    /\ authed st = isAuthenticated w
    /\ (isAuthenticated w = false -> authed st = false).
Proof.
  intros Hget Hne. unfold App_mount, effect_redirect. rewrite Hget.
  destruct value as [|c value]; [congruence|].
  unfold after_render. cbn [authed effect_authed App_initial].
  rewrite Bool.eqb_reflx.
  eexists. split; [reflexivity|]. cbn. auto.
Qed.

End AppFacts.

(** C4, as stated, fails in two ways. With a token in durable storage the
    page load with an [error] parameter ends authenticated; and an [error]
    parameter that is empty does not stop the exchange that a [code]
    parameter starts. *)
Lemma page_load_with_error_counterexample :
  ~ (forall JSON_parse config server (w : Browser) (value : string),
        Url.get "error" (location_search w) = Some value ->
        authed (fst (App_mount JSON_parse config server w)) = false)
  /\ ~ (forall JSON_parse config server (w : Browser) (value : string),
          Url.get "error" (location_search w) = Some value ->
          network (snd (App_mount JSON_parse config server w)) = network w).
Proof.
  pose (server :=
          Sample.answers 200
            (Returned
               (Some {| id_token := Some (VString "a.b.c");
                        access_token := None |}))).
  split; intros H.
  - specialize
      (H Sample.JSON_parse Sample.config server
         (Sample.browser {[ "cognito_id_token" := "a.b.c" ]} ∅
            [("error", "access_denied")])
         "access_denied" eq_refl).
    vm_compute in H. discriminate H.
  - specialize
      (H Sample.JSON_parse Sample.config server
         (Sample.browser ∅ {[ "cognito_pkce_verifier" := "v-1" ]}
            [("error", ""); ("code", "code-1")])
         "" eq_refl).
    vm_compute in H. discriminate H.
Qed.

Lemma page_load_with_error_witness :
  let server := Sample.answers 200 (Returned None) in
  let w :=
    Sample.browser {[ "cognito_id_token" := "a.b.c" ]} ∅
      [("error", "access_denied")] in
  exists st : AppState,
    App_mount Sample.JSON_parse Sample.config server w = (st, w)
    /\ authError st = "access_denied"
    /\ authed st = isAuthenticated w
    /\ (isAuthenticated w = false -> authed st = false).
Proof.
  intros server w.
  apply (page_load_with_error Sample.JSON_parse Sample.config server w
           "access_denied"); [reflexivity | discriminate].
Defined.


(** The same page load, step by step. *)
Example page_load_with_empty_array_token :
  let server :=
    Sample.answers 200
      (Returned
         (Some {| id_token := Some (VArray []); access_token := None |})) in
  let w :=
    Sample.browser ∅ {[ "cognito_pkce_verifier" := "v-1" ]}
      [("code", "code-1")] in
  let s := App_mount Sample.JSON_parse Sample.config server w in
  fst (exchangeCodeForTokens server Sample.config "code-1" w)
  = Returned true
  /\ localStorage (snd s) !! "cognito_id_token" = Some EmptyString
  /\ authed (fst s) = true
  /\ isAuthenticated (snd s) = false.
Proof. vm_compute. auto. Qed.



(** ** The user label *)

Section UserLabel.

Variable JSON_parse : string -> outcome (option (gmap string string)).

(** The empty text is not JSON. *)
Hypothesis JSON_parse_empty : forall o, JSON_parse "" <> Returned o.

(** The [||] chain picks the first claim that is not empty. *)
Lemma label_of_claims_first_nonempty (decoded : gmap string string) :
  label_of_claims decoded = first_nonempty claim_keys decoded.
Proof.
  unfold label_of_claims, claim_keys, first_nonempty, js_or.
  destruct (decoded !! "name") as [[|? ?]|]; cbn; try reflexivity.
  all: destruct (decoded !! "given_name") as [[|? ?]|]; cbn;
    try reflexivity.
  all: destruct (decoded !! "email") as [[|? ?]|]; cbn; try reflexivity.
  all: destruct (decoded !! "cognito:username") as [[|? ?]|]; cbn;
    try reflexivity.
  all: destruct (decoded !! "preferred_username") as [[|? ?]|]; cbn;
    try reflexivity.
  all: destruct (decoded !! "username") as [[|? ?]|]; reflexivity.
Qed.

Lemma split_second_nonempty (idToken payload : string) :
  JsString.split "." idToken !! 1%nat = Some payload ->
  JsString.truthy idToken = true.
Proof. destruct idToken; [discriminate | reflexivity]. Qed.

Lemma base64UrlDecode_empty : base64UrlDecode "" = Some "".
Proof. reflexivity. Qed.

(** C6, as amended. For a stored ID token with a payload segment:
    when the segment cannot be decoded as base64url, or what it decodes to
    is not JSON (or is [null]), the label is the empty string; when it
    decodes to a JSON object, the label is the value of the first of the claims [name],
    [given_name], [email], [cognito:username], [preferred_username],
    [username] that is present and not empty, or the empty string when
    there is none; so for an object with no [name] and no [given_name]
    and the email ["x@y.com"] the label is exactly ["x@y.com"]. *)
Theorem getUserLabel_first_nonempty (w : Browser)
  (idToken payload : string) :
  localStorage w !! "cognito_id_token" = Some idToken ->
  JsString.split "." idToken !! 1%nat = Some payload ->
  ((base64UrlDecode payload = None
    \/ (exists text e, base64UrlDecode payload = Some text
                       /\ JSON_parse text = Thrown e)
    \/ (exists text, base64UrlDecode payload = Some text
                     /\ JSON_parse text = Returned None)) ->
   getUserLabel JSON_parse w = "")
  /\ (forall text decoded,
        base64UrlDecode payload = Some text ->
        JSON_parse text = Returned (Some decoded) ->
        getUserLabel JSON_parse w = first_nonempty claim_keys decoded
        /\ (decoded !! "name" = None ->
            decoded !! "given_name" = None ->
            decoded !! "email" = Some "x@y.com" ->
            getUserLabel JSON_parse w = "x@y.com")).
Proof.
  intros Hid Hsplit.
  pose proof (split_second_nonempty idToken payload Hsplit) as Htok.
  unfold getUserLabel. rewrite Hid, Htok, Hsplit. cbn [negb].
  split.
  - intros [Hdec | [(text & e & Hdec & Hparse) | (text & Hdec & Hparse)]];
      destruct (negb (JsString.truthy payload)); try reflexivity;
      rewrite Hdec; try reflexivity; now rewrite Hparse.
  - intros text decoded Hdec Hparse.
    destruct payload as [|c payload].
    { rewrite base64UrlDecode_empty in Hdec. injection Hdec as <-.
      now apply JSON_parse_empty in Hparse. }
    cbn [JsString.truthy negb]. rewrite Hdec, Hparse.
    rewrite label_of_claims_first_nonempty. split; [reflexivity|].
    intros Hn Hg He. unfold claim_keys, first_nonempty.
    now rewrite Hn, Hg, He.
Qed.

End UserLabel.

(** C6, as stated, fails on "the first present": in the payload with an
    empty [name] and the email [x@y.com] the claim [name] is present, with
    the empty string as its value, and the label is the email. *)
Lemma getUserLabel_skips_empty_claim :
  ~ (forall JSON_parse (w : Browser) (idToken payload text : string)
       (decoded : gmap string string),
        localStorage w !! "cognito_id_token" = Some idToken ->
        JsString.split "." idToken !! 1%nat = Some payload ->
        base64UrlDecode payload = Some text ->
        JSON_parse text = Returned (Some decoded) ->
        getUserLabel JSON_parse w = first_present claim_keys decoded).
Proof.
  intros H.
  specialize
    (H Sample.JSON_parse
       (Sample.browser
          {[ "cognito_id_token"
             := "h.eyJuYW1lIjoiIiwiZW1haWwiOiJ4QHkuY29tIn0.s" ]} ∅ [])
       "h.eyJuYW1lIjoiIiwiZW1haWwiOiJ4QHkuY29tIn0.s"
       "eyJuYW1lIjoiIiwiZW1haWwiOiJ4QHkuY29tIn0"
       (default "" (base64UrlDecode "eyJuYW1lIjoiIiwiZW1haWwiOiJ4QHkuY29tIn0"))
       {[ "name" := ""; "email" := "x@y.com" ]}
       eq_refl eq_refl eq_refl).
  assert (Hparse :
            Sample.JSON_parse
              (default ""
                 (base64UrlDecode "eyJuYW1lIjoiIiwiZW1haWwiOiJ4QHkuY29tIn0"))
            = Returned (Some {[ "name" := ""; "email" := "x@y.com" ]}))
    by (vm_compute; reflexivity).
  specialize (H Hparse). vm_compute in H. discriminate H.
Qed.

(** On that token the label is the email. *)
Example getUserLabel_empty_name :
  getUserLabel Sample.JSON_parse
    (Sample.browser
       {[ "cognito_id_token"
          := "h.eyJuYW1lIjoiIiwiZW1haWwiOiJ4QHkuY29tIn0.s" ]} ∅ [])
  = "x@y.com".
Proof. vm_compute. reflexivity. Qed.

Lemma getUserLabel_first_nonempty_witness :
  let w :=
    Sample.browser
      {[ "cognito_id_token" := "h.eyJlbWFpbCI6InhAeS5jb20ifQ.s" ]} ∅ [] in
  let payload := "eyJlbWFpbCI6InhAeS5jb20ifQ" in
  ((base64UrlDecode payload = None
    \/ (exists text e, base64UrlDecode payload = Some text
                       /\ Sample.JSON_parse text = Thrown e)
    \/ (exists text, base64UrlDecode payload = Some text
                     /\ Sample.JSON_parse text = Returned None)) ->
   getUserLabel Sample.JSON_parse w = "")
  /\ (forall text decoded,
        base64UrlDecode payload = Some text ->
        Sample.JSON_parse text = Returned (Some decoded) ->
        getUserLabel Sample.JSON_parse w = first_nonempty claim_keys decoded
        /\ (decoded !! "name" = None ->
            decoded !! "given_name" = None ->
            decoded !! "email" = Some "x@y.com" ->
            getUserLabel Sample.JSON_parse w = "x@y.com")).
Proof.
  intros w payload.
  apply (getUserLabel_first_nonempty Sample.JSON_parse
           ltac:(intros o; discriminate) w
           "h.eyJlbWFpbCI6InhAeS5jb20ifQ.s" payload); reflexivity.
Defined.

Example getUserLabel_email :
  getUserLabel Sample.JSON_parse
    (Sample.browser
       {[ "cognito_id_token" := "h.eyJlbWFpbCI6InhAeS5jb20ifQ.s" ]} ∅ [])
  = "x@y.com".
Proof. vm_compute. reflexivity. Qed.

Example getUserLabel_undecodable :
  getUserLabel Sample.JSON_parse
    (Sample.browser {[ "cognito_id_token" := "h.!!!.s" ]} ∅ []) = ""
  /\ getUserLabel Sample.JSON_parse
       (Sample.browser {[ "cognito_id_token" := "h.bm90IGpzb24.s" ]} ∅ [])
     = "".
Proof. vm_compute. split; reflexivity. Qed.

(** ** The upload form *)

Section Upload.

Variable server : Request -> FetchResult TranscribeBody.

(** C7. With no file selected, or with a submission in flight, submitting
    the form does nothing: no request is sent, and the error, the result
    and the submitting flag are what they were. *)
Theorem handleSubmit_noop (st : UploadState) (w : Browser) :
  file st = None \/ isSubmitting st = true ->
  handleSubmit server st w = (st, w)
  /\ network (snd (handleSubmit server st w)) = network w
  /\ error (fst (handleSubmit server st w)) = error st
  /\ result (fst (handleSubmit server st w)) = result st
  /\ isSubmitting (fst (handleSubmit server st w)) = isSubmitting st.
Proof.
  intros H.
  assert (E : handleSubmit server st w = (st, w)).
  { unfold handleSubmit. destruct H as [-> | H]; [reflexivity|].
    rewrite H. now destruct (file st). }
  rewrite E. auto.
Qed.

(** What a submission that is answered with a response that is not [ok]
    displays. *)
Lemma handleSubmit_not_ok (st : UploadState) (w : Browser) (f : File)
  (r : Response TranscribeBody) :
  file st = Some f ->
  isSubmitting st = false ->
  server (transcribe_request f (language_hint st)) = FetchResolves r ->
  ok r = false ->
  handleSubmit server st w
  = ({| file := file st;
        language_hint := language_hint st;
        isSubmitting := false;
        error :=
          match json r with
          | Returned (Some p) =>
              js_or_string (detail p) "Transcription failed"
          | _ => "Transcription failed"
          end;
        result := None |},
     log_request (transcribe_request f (language_hint st)) w).
Proof.
  intros Hf Hs Hr Hok. unfold handleSubmit. rewrite Hf, Hs.
  unfold catch_all, bind at 1, fetch. rewrite Hr, Hok. cbn [negb].
  unfold bind at 1, try_catch, bind, response_json.
  destruct (json r) as [[p|]|e]; reflexivity.
Qed.

Lemma not_2xx {A : Type} (r : Response A) :
  (status r < 200 \/ 299 < status r)%N -> ok r = false.
Proof.
  intros H. unfold ok. apply andb_false_iff.
  rewrite !N.leb_gt. lia.
Qed.

(** C8. A submission answered with a status outside 200-299 displays, when
    the JSON body has the [detail] ["file too large"], exactly that text;
    and when the body is not JSON, or is an object without [detail], the
    text ["Transcription failed"]. The text is the [error] of the state and
    what the status line shows. *)
Theorem handleSubmit_error_detail (st : UploadState) (w : Browser)
  (f : File) (r : Response TranscribeBody) :
  file st = Some f ->
  isSubmitting st = false ->
  server (transcribe_request f (language_hint st)) = FetchResolves r ->
  (status r < 200 \/ 299 < status r)%N ->
  let st' := fst (handleSubmit server st w) in
  (forall p, json r = Returned (Some p) ->
             detail p = Some "file too large" ->
             error st' = "file too large"
             /\ statusMessage st' = "file too large")
  /\ ((exists e, json r = Thrown e)
      \/ (exists p, json r = Returned (Some p) /\ detail p = None) ->
      error st' = "Transcription failed"
      /\ statusMessage st' = "Transcription failed").
Proof.
  intros Hf Hs Hr Hst. cbv zeta.
  rewrite (handleSubmit_not_ok st w f r Hf Hs Hr (not_2xx r Hst)).
  unfold statusMessage. cbn [fst error isSubmitting]. split.
  - intros p -> ->. split; reflexivity.
  - intros [(e & ->) | (p & -> & ->)]; split; reflexivity.
Qed.

End Upload.

Lemma handleSubmit_noop_witness :
  let st :=
    {| file := None; language_hint := "en"; isSubmitting := false;
       error := "earlier error"; result := None |} in
  let w := Sample.browser ∅ ∅ [] in
  let server := Sample.answers 200 (Returned None) in
  handleSubmit server st w = (st, w)
  /\ network (snd (handleSubmit server st w)) = network w
  /\ error (fst (handleSubmit server st w)) = error st
  /\ result (fst (handleSubmit server st w)) = result st
  /\ isSubmitting (fst (handleSubmit server st w)) = isSubmitting st.
Proof.
  intros st w server. apply (handleSubmit_noop server st w).
  left. reflexivity.
Defined.

Lemma handleSubmit_error_detail_witness :
  let f := {| file_name := "clip.wav"; file_size := 48000 |} in
  let st :=
    {| file := Some f; language_hint := " en "; isSubmitting := false;
       error := ""; result := None |} in
  let w := Sample.browser ∅ ∅ [] in
  let body :=
    {| detail := Some "file too large";
       transcript := {| text := ""; language := None; segments := [] |} |} in
  let r := {| status := 413; json := Returned (Some body) |} in
  let server := Sample.answers 413 (Returned (Some body)) in
  let st' := fst (handleSubmit server st w) in
  (forall p, json r = Returned (Some p) ->
             detail p = Some "file too large" ->
             error st' = "file too large"
             /\ statusMessage st' = "file too large")
  /\ ((exists e, json r = Thrown e)
      \/ (exists p, json r = Returned (Some p) /\ detail p = None) ->
      error st' = "Transcription failed"
      /\ statusMessage st' = "Transcription failed").
Proof.
  intros f st w body r server.
  apply (handleSubmit_error_detail server st w f r);
    [reflexivity | reflexivity | reflexivity | right; reflexivity].
Defined.

Example handleSubmit_file_too_large :
  let f := {| file_name := "clip.wav"; file_size := 48000 |} in
  let st :=
    {| file := Some f; language_hint := " en "; isSubmitting := false;
       error := ""; result := None |} in
  let body :=
    {| detail := Some "file too large";
       transcript := {| text := ""; language := None; segments := [] |} |} in
  handleSubmit (Sample.answers 413 (Returned (Some body))) st
    (Sample.browser ∅ ∅ [])
  = ({| file := Some f; language_hint := " en "; isSubmitting := false;
        error := "file too large"; result := None |},
     log_request
       {| url := "/api/transcribe/segment?language=en";
          method := "POST"; headers := [];
          body := FormDataBody [("file", f)] |}
       (Sample.browser ∅ ∅ [])).
Proof. vm_compute. reflexivity. Qed.

(** * More of the code *)

(** ** Shape and inverses of the base64url helpers *)

Section Base64UrlMore.

Import JsString Base64.

Local Abbreviation swap c d :=
  (fun x : ascii => if Ascii.eqb x c then d else x) (only parsing).
Local Abbreviation to_url c := (swap "/" "_" (swap "+" "-" c))%char
  (only parsing).
Local Abbreviation of_url c := (swap "_" "/" (swap "-" "+" c))%char
  (only parsing).
Local Abbreviation octets_of buffer :=
  (map N_of_ascii (chars (string_of_list_byte buffer))) (only parsing).

Lemma sextets_size (l : list N) :
  List.length (sextets l) = ((4 * List.length l + 2) / 3)%nat.
Proof.
  induction l as [|a|a b|a b c r IH] using list_ind3; try reflexivity.
  cbn [sextets List.length]. rewrite IH.
  replace (4 * S (S (S (List.length r))) + 2)%nat
    with ((4 * List.length r + 2) + 4 * 3)%nat by lia.
  rewrite Nat.div_add by discriminate. lia.
Qed.

Lemma octets_of_length (buffer : list byte) :
  List.length (octets_of buffer) = List.length buffer.
Proof.
  unfold string_of_list_byte.
  now rewrite length_map, list_ascii_of_string_of_list_ascii, length_map.
Qed.

Lemma base64UrlEncode_size (buffer : list byte) :
  String.length (base64UrlEncode buffer)
  = ((4 * List.length buffer + 2) / 3)%nat.
Proof.
  now rewrite base64UrlEncode_length, sextets_size, octets_of_length.
Qed.

Lemma url_char_in_alphabet (n : N) :
  (n < 64)%N -> In (to_url (char_of_sextet n)) base64url_alphabet.
Proof.
  revert n. apply sextet_cases. intros k Hk.
  do 64 (destruct k as [|k]; [vm_compute; tauto|]).
  exfalso; lia.
Qed.

Lemma base64UrlEncode_alphabet (buffer : list byte) (c : ascii) :
  In c (chars (base64UrlEncode buffer)) -> In c base64url_alphabet.
Proof.
  rewrite base64UrlEncode_chars, list_ascii_of_string_of_list_ascii.
  rewrite map_map. intros Hc. apply in_map_iff in Hc as (n & <- & Hn).
  apply url_char_in_alphabet. now apply (buffer_sextet_bound buffer).
Qed.

(** X1. What [base64UrlEncode] returns has [(4 n + 2) / 3] characters for a
    buffer of [n] bytes, each of them a letter, a digit, [-] or [_]: no [+],
    no [/], no padding. *)
Theorem base64UrlEncode_shape (buffer : list byte) :
  String.length (base64UrlEncode buffer)
  = ((4 * List.length buffer + 2) / 3)%nat
  /\ (forall c, In c (chars (base64UrlEncode buffer)) ->
                In c base64url_alphabet
                /\ c <> "+"%char /\ c <> "/"%char /\ c <> "="%char).
Proof.
  split; [apply base64UrlEncode_size|].
  intros c Hc. apply base64UrlEncode_alphabet in Hc. split; [exact Hc|].
  repeat split; intros ->; vm_compute in Hc;
    repeat (destruct Hc as [Hc | Hc]; [discriminate Hc|]); exact Hc.
Qed.

Lemma base64Url_decode_encode (buffer : list byte) :
  base64UrlDecode (base64UrlEncode buffer)
  = Some (string_of_list_byte buffer).
Proof.
  unfold base64UrlDecode. rewrite (normalized_is_btoa buffer).
  apply atob_btoa.
Qed.

(** X2. [base64UrlEncode] is injective: two buffers with the same encoding
    are the same buffer. *)
Theorem base64UrlEncode_injective (b1 b2 : list byte) :
  base64UrlEncode b1 = base64UrlEncode b2 -> b1 = b2.
Proof.
  intros E. apply (f_equal base64UrlDecode) in E.
  rewrite !base64Url_decode_encode in E. injection E as E.
  apply (f_equal list_byte_of_string) in E.
  now rewrite !list_byte_of_string_of_list_byte in E.
Qed.

Lemma all_sextets_padding (d y : list ascii) :
  all_sextets (d ++ "="%char :: y) = None.
Proof.
  induction d as [|a d IH]; [reflexivity|].
  simpl. rewrite IH. now destruct (sextet_of_char a).
Qed.

Lemma str_chars (s : string) : str (chars s) = s.
Proof. apply string_of_list_ascii_of_string. Qed.

Lemma filter_app_padding (f : ascii -> bool) (l : list ascii) (k : nat) :
  f "="%char = true ->
  List.filter f (l ++ repeat "="%char k)
  = List.filter f l ++ repeat "="%char k.
Proof.
  intros Hf. rewrite List.filter_app. f_equal.
  apply filter_all, Forall_forall. intros c Hc.
  apply list_elem_of_In, repeat_spec in Hc. now subst c.
Qed.

(** X3. A text whose length leaves the remainder 1 when divided by four is
    never decoded: [base64UrlDecode] fails on it, whatever its
    characters. *)
Theorem base64UrlDecode_length_1_mod_4 (value : string) :
  (String.length value mod 4 = 1)%nat -> base64UrlDecode value = None.
Proof.
  intros Hlen. unfold base64UrlDecode, padEnd, JsString.length.
  rewrite Hlen.
  replace (String.length value + (4 - 1) mod 4 - String.length value)%nat
    with 3%nat by (cbn; lia).
  rewrite <- (str_chars value) at 1.
  rewrite <- str_repeat, <- str_app, !replaceAll_str, !map_app.
  rewrite !swap_padding by discriminate.
  unfold atob. rewrite list_ascii_of_string_of_list_ascii.
  unfold decode. rewrite filter_app_padding by reflexivity.
  set (d := List.filter _ _).
  assert (Hs : strip_padding (d ++ repeat "="%char 3)
               = d ++ ["="%char]
               \/ strip_padding (d ++ repeat "="%char 3)
                  = d ++ repeat "="%char 3).
  { unfold strip_padding.
    destruct (_ =? 0)%nat; [left|now right].
    rewrite rev_app_distr. cbn. now rewrite rev_involutive. }
  destruct Hs as [-> | ->].
  - destruct (_ =? 1)%nat; [reflexivity|].
    now rewrite all_sextets_padding.
  - destruct (_ =? 1)%nat; [reflexivity|].
    cbn [repeat]. now rewrite all_sextets_padding.
Qed.

Lemma encode_length (l : list N) :
  (List.length (encode l) mod 4 = 0)%nat.
Proof.
  unfold encode, padding. rewrite length_app, length_map, repeat_length.
  pose proof (sextets_length l) as H. cbv zeta in H.
  destruct H as [[-> H]|[[-> H]|[-> H]]];
    rewrite Nat.Div0.add_mod, H; reflexivity.
Qed.

Lemma encode_plain (l : list N) (c : ascii) :
  Forall (fun n => (n < 256)%N) l ->
  In c (encode l) -> c <> "-"%char /\ c <> "_"%char.
Proof.
  intros Hl Hc. unfold encode in Hc. apply in_app_or in Hc as [Hc | Hc].
  - apply in_map_iff in Hc as (n & <- & Hn).
    pose proof (sextets_bound l Hl) as Hb. rewrite Forall_forall in Hb.
    apply list_elem_of_In, Hb in Hn.
    destruct (char_of_sextet_plain n Hn) as (_ & ? & ? & _). now split.
  - apply repeat_spec in Hc. subst c. split; discriminate.
Qed.

(** X4. [base64UrlDecode] also reads standard base64 with its padding: what
    [btoa] makes of a binary string is decoded to that string. *)
Theorem base64UrlDecode_btoa (s : string) :
  base64UrlDecode (btoa s) = Some s.
Proof.
  unfold base64UrlDecode, padEnd, JsString.length.
  assert (Hlen : (String.length (btoa s) mod 4 = 0)%nat).
  { unfold btoa. rewrite length_str. apply encode_length. }
  rewrite Hlen.
  replace (String.length (btoa s) + (4 - 0) mod 4 - String.length (btoa s))%nat
    with 0%nat by (cbn; lia).
  cbn [repeat_char]. rewrite append_empty_r.
  assert (Hid : replaceAll "_" "/" (replaceAll "-" "+" (btoa s)) = btoa s).
  { unfold btoa. rewrite !replaceAll_str, map_map. f_equal.
    rewrite <- (map_id (encode _)) at 2. apply map_ext_in. intros c Hc.
    apply encode_plain in Hc as [H1 H2].
    - apply Ascii.eqb_neq in H1, H2. now rewrite H1, H2.
    - apply Forall_forall. intros n Hn.
      apply list_elem_of_In, in_map_iff in Hn as (a & <- & _).
      apply N_ascii_bounded. }
  rewrite Hid. apply atob_btoa.
Qed.

End Base64UrlMore.

Lemma base64UrlEncode_injective_witness :
  base64UrlEncode [x01; x02]%byte = base64UrlEncode [x01; x02]%byte
  /\ [x01; x02]%byte = [x01; x02]%byte.
Proof.
  split; [reflexivity|].
  apply (base64UrlEncode_injective [x01; x02]%byte [x01; x02]%byte).
  reflexivity.
Defined.

Lemma base64UrlDecode_length_1_mod_4_witness :
  (String.length "abcde" mod 4 = 1)%nat /\ base64UrlDecode "abcde" = None.
Proof.
  split; [reflexivity|].
  apply (base64UrlDecode_length_1_mod_4 "abcde"). reflexivity.
Defined.

(** ** The user label when there is nothing to decode *)

Section UserLabelMore.

Variable JSON_parse : string -> outcome (option (gmap string string)).

Lemma split_go_no_separator (c : ascii) (cur s : string) :
  ~ In c (list_ascii_of_string s) ->
  JsString.split_go c cur s = [String.rev_app cur s].
Proof.
  revert cur. induction s as [|x s IH]; intros cur Hc; [reflexivity|].
  simpl in Hc. simpl.
  destruct (Ascii.eqb_spec x c) as [->|_]; [tauto|].
  rewrite IH by tauto. reflexivity.
Qed.

(** X5. With no ID token in durable storage, an empty one, or one that has
    no dot in it, the label is the empty string, whatever else is stored (an
    access token alone gives no label) and without [JSON.parse] being
    consulted. *)
Theorem getUserLabel_without_payload (w : Browser) :
  localStorage w !! "cognito_id_token" = None
  \/ (exists idToken,
        localStorage w !! "cognito_id_token" = Some idToken
        /\ ~ In "."%char (list_ascii_of_string idToken)) ->
  getUserLabel JSON_parse w = "".
Proof.
  unfold getUserLabel. intros [-> | (idToken & -> & Hdot)]; [reflexivity|].
  destruct (negb (JsString.truthy idToken)); [reflexivity|].
  unfold JsString.split. now rewrite split_go_no_separator.
Qed.


(** Where [isAuthenticated()] is false because there is no ID token, there
    is no label. *)
Lemma getUserLabel_unauthenticated (w : Browser) :
  isAuthenticated w = false -> getUserLabel JSON_parse w = "".
Proof.
  rewrite isAuthenticated_or. intros H. apply orb_false_iff in H as [H _].
  unfold getUserLabel.
  destruct (localStorage w !! "cognito_id_token") as [[|c t]|];
    [reflexivity | discriminate H | reflexivity].
Qed.

End UserLabelMore.

Lemma getUserLabel_without_payload_witness :
  let w :=
    Sample.browser
      {[ "cognito_id_token" := "no-dots-here";
         "cognito_access_token" := "a.b.c" ]} ∅ [] in
  getUserLabel Sample.JSON_parse w = "".
Proof.
  intros w. apply (getUserLabel_without_payload Sample.JSON_parse w).
  right. exists "no-dots-here". split; [reflexivity|].
  vm_compute. intuition discriminate.
Defined.

(** ** Verifier and challenge *)

Section PkceMore.

(** [getRandomValues] fills an array of up to 65536 bytes, keeping its
    length, and refuses a longer one. *)
Lemma getRandomValues_run (entropy : nat -> byte) (n : nat) :
  getRandomValues entropy (new_Uint8Array n)
  = if (65536 <? N.of_nat n)%N then Thrown QuotaExceededError
    else Returned (imap (fun i _ => entropy i) (new_Uint8Array n)).
Proof.
  unfold getRandomValues, new_Uint8Array. now rewrite length_replicate.
Qed.

Lemma getRandomValues_length (entropy : nat -> byte) (n : nat)
  (bytes : list byte) :
  getRandomValues entropy (new_Uint8Array n) = Returned bytes ->
  List.length bytes = n.
Proof.
  rewrite getRandomValues_run.
  destruct (65536 <? N.of_nat n)%N; [discriminate|]. intros [= <-].
  unfold new_Uint8Array. now rewrite length_imap, length_replicate.
Qed.



(** X7. Starting a login writes the verifier key of session storage and
    nothing else: durable storage, the other session keys, the request log
    and the address are untouched. A second start replaces the verifier of
    the first: at most one verifier is pending. *)
Theorem buildLoginUrl_only_verifier (entropy entropy' : nat -> byte)
  (config config' : AuthConfig) (w : Browser) :
  let w1 := snd (buildLoginUrl entropy config w) in
  let w2 := snd (buildLoginUrl entropy' config' w1) in
  localStorage w1 = localStorage w
  /\ network w1 = network w
  /\ navigation w1 = navigation w
  /\ location_search w1 = location_search w
  /\ (forall key, key <> "cognito_pkce_verifier" ->
                  sessionStorage w1 !! key = sessionStorage w !! key)
  /\ (exists verifier,
        randomVerifier entropy' 64 = Returned verifier
        /\ sessionStorage w2 !! "cognito_pkce_verifier" = Some verifier)
  /\ w2 = snd (buildLoginUrl entropy' config' w).
Proof.
  cbv zeta. rewrite !buildLoginUrl_run. cbn [snd].
  repeat split.
  - intros key Hkey. cbn. now rewrite lookup_insert_ne.
  - eexists. split; [apply randomVerifier_default|].
    cbn. apply lookup_insert_eq.
  - unfold set_sessionStorage. cbn. f_equal. apply insert_insert_eq.
Qed.

End PkceMore.

(** ** More on the code exchange *)

Section ExchangeMore.

Variable server : Request -> FetchResult TokenPayload.
Variable config : AuthConfig.
Variable code : string.

Lemma exchange_request (w : Browser) (verifier : string) :
  sessionStorage w !! CODE_VERIFIER_KEY = Some verifier ->
  verifier <> EmptyString ->
  network (snd (exchangeCodeForTokens server config code w))
  = network w ++ [token_request config code verifier].
Proof.
  intros Hv Hne. rewrite (exchange_sent server config code w verifier Hv Hne).
  cbv zeta. destruct (server _) as [e | r]; [reflexivity|].
  destruct (ok r); [|reflexivity].
  destruct (json r) as [[p|]|e]; try reflexivity.
  cbn [snd]. destruct (JsValue.truthy_opt (id_token p)),
    (JsValue.truthy_opt (access_token p)); reflexivity.
Qed.

(** X8. With a non-empty verifier stored, [exchangeCodeForTokens] sends
    exactly one request, whatever the answer and whether it then returns or
    throws: a POST to the hosted [/oauth2/token] URL with a form-encoded body
    that carries the code and that verifier. Nothing is retried. *)
Theorem exchange_sends_one_request (w : Browser) (verifier : string) :
  sessionStorage w !! "cognito_pkce_verifier" = Some verifier ->
  verifier <> EmptyString ->
  exists req : Request,
    network (snd (exchangeCodeForTokens server config code w))
    = network w ++ [req]
    /\ url req = buildHostedUrl config "/oauth2/token"
    /\ method req = "POST"
    /\ headers req
       = [("Content-Type", "application/x-www-form-urlencoded")]
    /\ body req
       = UrlEncodedBody
           ("grant_type=authorization_code&client_id="
            +:+ Url.urlencode (clientId config)
            +:+ "&code=" +:+ Url.urlencode code
            +:+ "&redirect_uri=" +:+ Url.urlencode (redirectUri config)
            +:+ "&code_verifier=" +:+ Url.urlencode verifier).
Proof.
  intros Hv Hne. exists (token_request config code verifier).
  split; [now apply exchange_request|]. repeat split.
Qed.


Lemma exchange_returned_verifier (w w' : Browser) (didStore : bool) :
  exchangeCodeForTokens server config code w = (Returned didStore, w') ->
  sessionStorage w' !! CODE_VERIFIER_KEY = None.
Proof.
  intros H.
  destruct (JsString.truthy_opt (sessionStorage w !! CODE_VERIFIER_KEY))
    eqn:Hv.
  2:{ rewrite exchange_missing in H by assumption. discriminate H. }
  destruct (sessionStorage w !! CODE_VERIFIER_KEY) as [v|] eqn:Hs;
    [|discriminate Hv].
  simpl in Hv. apply truthy_nonempty in Hv.
  rewrite (exchange_sent server config code w v Hs Hv) in H. cbv zeta in H.
  destruct (server _) as [e'|r]; [discriminate H|].
  destruct (ok r); [|discriminate H].
  destruct (json r) as [[p|]|e']; try discriminate H.
  injection H as _ <-. cbn. apply lookup_delete_eq.
Qed.

End ExchangeMore.

(** X10. A code cannot be exchanged twice: after a call that returned, the
    next call, on any server, config and code, throws
    ['Missing PKCE code verifier'] and sends nothing. *)
Theorem exchange_replay (server server' : Request -> FetchResult TokenPayload)
  (config config' : AuthConfig) (code code' : string) (w w' : Browser)
  (didStore : bool) :
  exchangeCodeForTokens server config code w = (Returned didStore, w') ->
  exchangeCodeForTokens server' config' code' w'
  = (Thrown (Error "Missing PKCE code verifier"), w').
Proof.
  intros H. apply exchange_returned_verifier in H.
  apply exchange_missing. now rewrite H.
Qed.

(** X11. The verifier that the exchange sends is the one whose SHA-256 the
    login URL carried. After [buildLoginUrl], the request that
    [exchangeCodeForTokens] sends has a body ending in
    [&code_verifier=<v>], written as it is, and the URL that [buildLoginUrl]
    returned ends in [&code_challenge=<c>&code_challenge_method=S256] with
    [c] the base64url SHA-256 of that same [v]. *)
Theorem login_then_exchange (entropy : nat -> byte)
  (server : Request -> FetchResult TokenPayload) (config : AuthConfig)
  (code : string) (w : Browser) :
  exists (v target_prefix body_prefix : string),
    fst (buildLoginUrl entropy config w)
    = Returned
        (target_prefix +:+ "&code_challenge="
         +:+ base64UrlEncode (Sha256.sha256 (Url.TextEncoder_encode v))
         +:+ "&code_challenge_method=S256")
    /\ network
         (snd (exchangeCodeForTokens server config code
                 (snd (buildLoginUrl entropy config w))))
       = network w
         ++ [{| url := buildHostedUrl config "/oauth2/token";
                method := "POST";
                headers :=
                  [("Content-Type", "application/x-www-form-urlencoded")];
                body :=
                  UrlEncodedBody (body_prefix +:+ "&code_verifier=" +:+ v) |}].
Proof.
  exists (drawn entropy). eexists _, _.
  rewrite buildLoginUrl_run. cbn [fst snd]. split.
  - rewrite <- !append_assoc. reflexivity.
  - rewrite (exchange_request server config code _ (drawn entropy)).
    + cbn [network set_sessionStorage]. f_equal. f_equal.
      unfold token_request. f_equal. f_equal.
      change [("grant_type", "authorization_code");
              ("client_id", clientId config); ("code", code);
              ("redirect_uri", redirectUri config);
              ("code_verifier", drawn entropy)]
        with ([("grant_type", "authorization_code");
               ("client_id", clientId config); ("code", code);
               ("redirect_uri", redirectUri config)]
              ++ [("code_verifier", drawn entropy)]).
      rewrite serialize_snoc by discriminate.
      rewrite urlencode_base64UrlEncode. reflexivity.
    + apply lookup_insert_eq.
    + apply (randomVerifier_nonempty entropy), randomVerifier_default.
Qed.

Lemma exchange_sends_one_request_witness :
  let w := Sample.browser ∅ {[ "cognito_pkce_verifier" := "v-1" ]} [] in
  exists req : Request,
    network
      (snd (exchangeCodeForTokens (fun _ => FetchRejects NotAnError)
              Sample.config "c 1" w))
    = network w ++ [req]
    /\ url req = buildHostedUrl Sample.config "/oauth2/token"
    /\ method req = "POST"
    /\ headers req
       = [("Content-Type", "application/x-www-form-urlencoded")]
    /\ body req
       = UrlEncodedBody
           ("grant_type=authorization_code&client_id="
            +:+ Url.urlencode (clientId Sample.config)
            +:+ "&code=" +:+ Url.urlencode "c 1"
            +:+ "&redirect_uri="
            +:+ Url.urlencode (redirectUri Sample.config)
            +:+ "&code_verifier=" +:+ Url.urlencode "v-1").
Proof.
  intros w.
  apply (exchange_sends_one_request (fun _ => FetchRejects NotAnError)
           Sample.config "c 1" w "v-1"); [reflexivity | discriminate].
Defined.


Lemma exchange_replay_witness :
  let p :=
    {| id_token := Some (VString "a.b.c"); access_token := None |} in
  let server := Sample.answers 200 (Returned (Some p)) in
  let w := Sample.browser ∅ {[ "cognito_pkce_verifier" := "v-1" ]} [] in
  let w' := snd (exchangeCodeForTokens server Sample.config "code-1" w) in
  exchangeCodeForTokens server Sample.config "code-1" w'
  = (Thrown (Error "Missing PKCE code verifier"), w').
Proof.
  intros p server w w'.
  apply (exchange_replay server server Sample.config Sample.config
           "code-1" "code-1" w w' true).
  reflexivity.
Defined.

(** ** More on the [App] component *)

Section AppMore.

Variable JSON_parse : string -> outcome (option (gmap string string)).
Variable config : AuthConfig.








(** X14. What a click on "Log in with Cognito" does. Without a configured
    domain and client id it does nothing at all. With them it never touches
    the flag, the label, durable storage or the network, and: where
    [crypto.subtle] is missing, it shows ['Unable to start login'] and
    leaves the browser as it was; otherwise it stores the fresh verifier in
    session storage and then either navigates to the URL that
    [buildLoginUrl] returned, with the state as it was, or, where that URL
    does not parse, shows ['Unable to start login'] without navigating, the
    verifier staying stored. *)
Theorem login_click_effect (platform : Platform) (entropy : nat -> byte)
  (st : AppState) (w : Browser) :
  let st' := fst (login_click config platform entropy st w) in
  let w' := snd (login_click config platform entropy st w) in
  let failed :=
    {| authed := authed st;
       authError := "Unable to start login";
       userLabel := userLabel st |} in
  (hasConfig config = false -> st' = st /\ w' = w)
  /\ (hasConfig config = true ->
      authed st' = authed st
      /\ userLabel st' = userLabel st
      /\ localStorage w' = localStorage w
      /\ network w' = network w
      /\ (subtle_available platform = false -> st' = failed /\ w' = w)
      /\ (subtle_available platform = true ->
          exists verifier target,
            randomVerifier entropy 64 = Returned verifier
            /\ fst (buildLoginUrl entropy config w) = Returned target
            /\ sessionStorage w'
               = <["cognito_pkce_verifier" := verifier]> (sessionStorage w)
            /\ (url_parses platform target = true ->
                st' = st /\ navigation w' = navigation w ++ [target])
            /\ (url_parses platform target = false ->
                st' = failed /\ navigation w' = navigation w))).
Proof.
  cbv zeta. rewrite login_click_run. cbv zeta. split.
  - intros ->. split; reflexivity.
  - intros ->. cbn [negb]. rewrite buildLoginUrl_run.
    destruct (subtle_available platform); cbn [negb fst snd].
    2:{ repeat split; discriminate. }
    destruct (url_parses platform _) eqn:Hp; cbn [fst snd authed userLabel].
    all: do 4 (split; [reflexivity|]).
    all: split; [discriminate|].
    all: intros _; eexists _, _.
    all: split; [apply randomVerifier_default|].
    all: do 2 (split; [reflexivity|]).
    all: rewrite Hp; split; intros E; try discriminate E.
    all: split; reflexivity.
Qed.

(** X15. A page load whose query string has neither a non-empty [error] nor
    a non-empty [code] sends nothing and changes nothing in the browser; the
    state is [isAuthenticated()], no error, and the label of the stored ID
    token. *)
Theorem page_load_plain (server : Request -> FetchResult TokenPayload)
  (w : Browser) :
  JsString.truthy_opt (Url.get "error" (location_search w)) = false ->
  JsString.truthy_opt (Url.get "code" (location_search w)) = false ->
  App_mount JSON_parse config server w
  = ({| authed := isAuthenticated w;
        authError := "";
        userLabel := getUserLabel JSON_parse w |}, w).
Proof.
  intros He Hc. unfold App_mount, effect_redirect.
  destruct (Url.get "error" (location_search w)) as [[|c e]|];
    try discriminate He.
  all: destruct (Url.get "code" (location_search w)) as [[|d code]|];
    try discriminate Hc.
  all: unfold after_render; rewrite Bool.eqb_reflx.
  all: unfold effect_authed, App_initial; cbn [authed authError userLabel].
  all: destruct (isAuthenticated w) eqn:E; [reflexivity|].
  all: now rewrite getUserLabel_unauthenticated.
Qed.


End AppMore.

(** The two ways a login click fails: on a page without [crypto.subtle]
    nothing is stored; with a URL that does not parse the verifier is. *)
Example login_click_failures :
  let st := {| authed := false; authError := ""; userLabel := "" |} in
  let w := Sample.browser ∅ ∅ [] in
  let insecure :=
    {| subtle_available := false; url_parses := fun _ => true |} in
  let unparsable :=
    {| subtle_available := true; url_parses := fun _ => false |} in
  let s1 := login_click Sample.config insecure Sample.entropy st w in
  let s2 := login_click Sample.config unparsable Sample.entropy st w in
  authError (fst s1) = "Unable to start login"
  /\ snd s1 = w
  /\ authError (fst s2) = "Unable to start login"
  /\ navigation (snd s2) = []
  /\ String.length
       <$> sessionStorage (snd s2) !! "cognito_pkce_verifier"
     = Some 86%nat.
Proof. vm_compute. repeat split. Qed.

(** X17. Login is enabled exactly when the environment gives a non-empty
    domain and a non-empty client id; otherwise a click on the login button
    does nothing. The redirect and logout URIs default to the origin and the
    scope to ["openid email profile"] only when their variable is not set:
    a variable set to the empty string is kept. *)
Theorem getAuthConfig_hasConfig (env : gmap string string)
  (origin : string) :
  let config := getAuthConfig env origin in
  (hasConfig config = true <->
   (exists d, env !! "VITE_COGNITO_DOMAIN" = Some d /\ d <> "")
   /\ (exists c, env !! "VITE_COGNITO_CLIENT_ID" = Some c /\ c <> ""))
  /\ (hasConfig config = false ->
      forall platform entropy st w,
        login_click config platform entropy st w = (st, w))
  /\ redirectUri config
     = default origin (env !! "VITE_COGNITO_REDIRECT_URI")
  /\ logoutUri config = default origin (env !! "VITE_COGNITO_LOGOUT_URI")
  /\ scope config
     = default "openid email profile" (env !! "VITE_COGNITO_SCOPE")
  /\ (env !! "VITE_COGNITO_REDIRECT_URI" = Some "" ->
      redirectUri config = "").
Proof.
  cbv zeta. split; [split|split; [|repeat split]].
  - unfold hasConfig, getAuthConfig. cbn. intros H.
    apply andb_true_iff in H as [Hd Hc]. split.
    + destruct (env !! "VITE_COGNITO_DOMAIN") as [[|c d]|];
        try discriminate Hd. eexists. split; [reflexivity | discriminate].
    + destruct (env !! "VITE_COGNITO_CLIENT_ID") as [[|c d]|];
        try discriminate Hc. eexists. split; [reflexivity | discriminate].
  - intros [(d & Hd & Hdne) (c & Hc & Hcne)].
    unfold hasConfig, getAuthConfig. cbn. rewrite Hd, Hc. cbn.
    apply truthy_nonempty in Hdne, Hcne. now rewrite Hdne, Hcne.
  - intros H platform entropy st w. unfold login_click. now rewrite H.
  - intros H. cbn. now rewrite H.
Qed.


Lemma page_load_plain_witness :
  let w :=
    Sample.browser
      {[ "cognito_id_token" := "h.eyJlbWFpbCI6InhAeS5jb20ifQ.s" ]} ∅
      [("tab", "2")] in
  App_mount Sample.JSON_parse Sample.config
    (Sample.answers 200 (Returned None)) w
  = ({| authed := isAuthenticated w;
        authError := "";
        userLabel := getUserLabel Sample.JSON_parse w |}, w).
Proof.
  intros w.
  apply (page_load_plain Sample.JSON_parse Sample.config
           (Sample.answers 200 (Returned None)) w); reflexivity.
Defined.


(** ** More on the upload form *)

Section UploadMore.

Variable server : Request -> FetchResult TranscribeBody.

(** What a submission that goes out ends in, by the answer it gets. *)
Lemma handleSubmit_run (st : UploadState) (w : Browser) (f : File) :
  file st = Some f ->
  isSubmitting st = false ->
  let req := transcribe_request f (language_hint st) in
  let settled (message : string) (payload : option TranscriptResponse) :=
    {| file := file st; language_hint := language_hint st;
       isSubmitting := false; error := message; result := payload |} in
  let thrown_message (e : thrown) :=
    match e with
    | Error message => message
    | NotAnError => "Unable to reach the API"
    end in
  handleSubmit server st w
  = (match server req with
     | FetchRejects e => settled (thrown_message e) None
     | FetchResolves r =>
         if ok r then
           match json r with
           | Thrown e => settled (thrown_message e) None
           | Returned payload => settled "" (option_map transcript payload)
           end
         else
           settled
             match json r with
             | Returned (Some p) =>
                 js_or_string (detail p) "Transcription failed"
             | _ => "Transcription failed"
             end None
     end, log_request req w).
Proof.
  intros Hf Hs. cbv zeta. unfold handleSubmit. rewrite Hf, Hs.
  unfold catch_all, bind at 1, fetch.
  destruct (server _) as [e | r]; [reflexivity|].
  destruct (ok r); cbn [negb].
  - unfold bind, response_json. destruct (json r) as [p | e]; reflexivity.
  - unfold bind at 1, try_catch, bind, response_json.
    destruct (json r) as [[p|]|e]; reflexivity.
Qed.

(** X18. A submission answered with a success status and a JSON body shows
    the transcript of that body and no error, and the status line reads
    ["Transcription complete"]; whatever error or result was shown before is
    gone. *)
Theorem handleSubmit_success (st : UploadState) (w : Browser) (f : File)
  (r : Response TranscribeBody) (p : TranscribeBody) :
  file st = Some f ->
  isSubmitting st = false ->
  server (transcribe_request f (language_hint st)) = FetchResolves r ->
  ok r = true ->
  json r = Returned (Some p) ->
  let st' := fst (handleSubmit server st w) in
  result st' = Some (transcript p)
  /\ error st' = ""
  /\ isSubmitting st' = false
  /\ statusMessage st' = "Transcription complete".
Proof.
  intros Hf Hs Hr Hok Hj. cbv zeta.
  rewrite (handleSubmit_run st w f Hf Hs). cbv zeta.
  rewrite Hr, Hok, Hj. repeat split.
Qed.

(** X19. When the request fails to complete, or a success response has a
    body that is not JSON, the error shown is the message of the thrown
    [Error], or ["Unable to reach the API"] when what was thrown is not an
    [Error]; no result is shown. *)
Theorem handleSubmit_thrown (st : UploadState) (w : Browser) (f : File)
  (e : thrown) :
  file st = Some f ->
  isSubmitting st = false ->
  server (transcribe_request f (language_hint st)) = FetchRejects e
  \/ (exists r, server (transcribe_request f (language_hint st))
                = FetchResolves r
                /\ ok r = true /\ json r = Thrown e) ->
  let st' := fst (handleSubmit server st w) in
  error st'
  = match e with
    | Error message => message
    | NotAnError => "Unable to reach the API"
    end
  /\ result st' = None
  /\ isSubmitting st' = false.
Proof.
  intros Hf Hs H. cbv zeta.
  rewrite (handleSubmit_run st w f Hf Hs). cbv zeta.
  destruct H as [-> | (r & -> & -> & ->)]; repeat split.
Qed.

(** X20. Every submission that goes out sends exactly one request, the POST
    of the selected file, and ends with the submitting flag down again,
    whatever the answer. The file and the language hint are kept, neither
    storage is touched, and a result and an error are never shown
    together. *)
Theorem handleSubmit_settles (st : UploadState) (w : Browser) (f : File) :
  file st = Some f ->
  isSubmitting st = false ->
  let st' := fst (handleSubmit server st w) in
  let w' := snd (handleSubmit server st w) in
  isSubmitting st' = false
  /\ file st' = Some f
  /\ language_hint st' = language_hint st
  /\ network w' = network w ++ [transcribe_request f (language_hint st)]
  /\ method (transcribe_request f (language_hint st)) = "POST"
  /\ body (transcribe_request f (language_hint st))
     = FormDataBody [("file", f)]
  /\ localStorage w' = localStorage w
  /\ sessionStorage w' = sessionStorage w
  /\ (result st' <> None -> error st' = "").
Proof.
  intros Hf Hs. cbv zeta.
  rewrite (handleSubmit_run st w f Hf Hs). cbv zeta. cbn [snd fst].
  destruct (server _) as [e | r]; [now repeat split|].
  destruct (ok r); [|now repeat split].
  destruct (json r) as [p | e]; now repeat split.
Qed.

End UploadMore.

Section UploadRequest.

Lemma trimStart_spaces (s : string) :
  Forall (fun c => Trim.is_space c = true) (list_ascii_of_string s) ->
  Trim.trimStart s = "".
Proof.
  induction s as [|c s IH]; [reflexivity|]. simpl. intros H.
  inversion H as [|? ? Hc Hs]; subst. rewrite Hc. now apply IH.
Qed.

(** X21. The request of a submission goes to [/api/transcribe/segment]
    without a query when the language hint is empty or all white space, and
    otherwise with the single parameter [language], the hint trimmed and
    URL-encoded. *)
Theorem transcribe_request_url (f : File) (language : string) :
  (Forall (fun c => Trim.is_space c = true) (list_ascii_of_string language)
   -> url (transcribe_request f language) = "/api/transcribe/segment")
  /\ (Trim.trim language <> "" ->
      url (transcribe_request f language)
      = "/api/transcribe/segment?language="
        +:+ Url.urlencode (Trim.trim language)).
Proof.
  unfold transcribe_request. cbn [url]. split.
  - intros H. unfold Trim.trim. rewrite (trimStart_spaces language H).
    reflexivity.
  - intros H. apply truthy_nonempty in H. rewrite H. reflexivity.
Qed.

(** X22. After a reset there is no file, no language hint, no error and no
    result; the status line is empty unless a submission is in flight; and
    submitting the form does nothing until a file is chosen again. *)
Theorem handleReset_clears
  (server : Request -> FetchResult TranscribeBody) (st : UploadState)
  (w : Browser) :
  let st' := handleReset st in
  file st' = None /\ language_hint st' = "" /\ error st' = ""
  /\ result st' = None
  /\ isSubmitting st' = isSubmitting st
  /\ statusMessage st'
     = (if isSubmitting st then "Transcribing..." else "")
  /\ handleSubmit server st' w = (st', w).
Proof.
  cbv zeta. unfold statusMessage, handleReset, handleSubmit. cbn.
  repeat split.
Qed.

(** X23. Choosing files in the file input selects the first of them and
    clears error and result. With no file in the list, or no list, nothing
    is selected and a submission does nothing; with one, and no submission
    in flight, a submission sends that file. *)
Theorem handleFileChange_selects
  (server : Request -> FetchResult TranscribeBody)
  (files : option (list File)) (st : UploadState) (w : Browser) :
  let st' := handleFileChange files st in
  error st' = "" /\ result st' = None
  /\ language_hint st' = language_hint st
  /\ (files = None \/ files = Some [] ->
      file st' = None /\ handleSubmit server st' w = (st', w))
  /\ (forall f rest,
        files = Some (f :: rest) -> isSubmitting st = false ->
        file st' = Some f
        /\ network (snd (handleSubmit server st' w))
           = network w ++ [transcribe_request f (language_hint st)]
        /\ body (transcribe_request f (language_hint st))
           = FormDataBody [("file", f)]).
Proof.
  cbv zeta. split; [reflexivity|]. split; [reflexivity|].
  split; [reflexivity|]. split.
  - intros [-> | ->]; split; reflexivity.
  - intros f rest -> Hs. split; [reflexivity|]. split; [|reflexivity].
    rewrite (handleSubmit_run server
               (handleFileChange (Some (f :: rest)) st) w f eq_refl Hs).
    reflexivity.
Qed.

End UploadRequest.

Lemma handleSubmit_success_witness :
  let f := {| file_name := "clip.wav"; file_size := 48000 |} in
  let st :=
    {| file := Some f; language_hint := ""; isSubmitting := false;
       error := "earlier error"; result := None |} in
  let p :=
    {| detail := None;
       transcript :=
         {| text := "hello"; language := Some "en"; segments := [] |} |} in
  let server := Sample.answers 200 (Returned (Some p)) in
  let st' := fst (handleSubmit server st (Sample.browser ∅ ∅ [])) in
  result st' = Some (transcript p)
  /\ error st' = ""
  /\ isSubmitting st' = false
  /\ statusMessage st' = "Transcription complete".
Proof.
  intros f st p server.
  apply (handleSubmit_success server st (Sample.browser ∅ ∅ []) f
           {| status := 200; json := Returned (Some p) |} p);
    reflexivity.
Defined.

Lemma handleSubmit_thrown_witness :
  let f := {| file_name := "clip.wav"; file_size := 48000 |} in
  let st :=
    {| file := Some f; language_hint := ""; isSubmitting := false;
       error := ""; result := None |} in
  let server : Request -> FetchResult TranscribeBody :=
    fun _ => FetchRejects (Error "Failed to fetch") in
  let st' := fst (handleSubmit server st (Sample.browser ∅ ∅ [])) in
  error st' = "Failed to fetch"
  /\ result st' = None
  /\ isSubmitting st' = false.
Proof.
  intros f st server.
  apply (handleSubmit_thrown server st (Sample.browser ∅ ∅ []) f
           (Error "Failed to fetch")); [reflexivity | reflexivity |].
  left. reflexivity.
Defined.

Lemma handleSubmit_settles_witness :
  let f := {| file_name := "clip.wav"; file_size := 48000 |} in
  let st :=
    {| file := Some f; language_hint := "de"; isSubmitting := false;
       error := ""; result := None |} in
  let server : Request -> FetchResult TranscribeBody :=
    Sample.answers 502 (Thrown (Error "Unexpected token")) in
  let w := Sample.browser ∅ ∅ [] in
  let st' := fst (handleSubmit server st w) in
  let w' := snd (handleSubmit server st w) in
  isSubmitting st' = false
  /\ file st' = Some f
  /\ language_hint st' = language_hint st
  /\ network w' = network w ++ [transcribe_request f (language_hint st)]
  /\ method (transcribe_request f (language_hint st)) = "POST"
  /\ body (transcribe_request f (language_hint st))
     = FormDataBody [("file", f)]
  /\ localStorage w' = localStorage w
  /\ sessionStorage w' = sessionStorage w
  /\ (result st' <> None -> error st' = "").
Proof.
  intros f st server w.
  apply (handleSubmit_settles server st w f); reflexivity.
Defined.

(** ** The hosted URLs *)

Section HostedUrl.

Lemma prefix_append (p d x : string) :
  String.prefix p d = true -> String.prefix p (d +:+ x) = true.
Proof.
  revert d. induction p as [|c p IH]; intros d H.
  - now destruct (d +:+ x).
  - destruct d as [|c' d]; [discriminate H|].
    rewrite append_cons. simpl in *.
    destruct (ascii_dec c c'); [now apply IH | discriminate H].
Qed.

(** X24. A hosted URL always begins with [http]: a domain that begins with
    these four characters is used as it is, with the path after it, and any
    other domain gets [https://] in front. So a bare host name that happens
    to begin with [http] is left without a scheme. *)
Theorem buildHostedUrl_scheme (config : AuthConfig) (path : string) :
  JsString.startsWith (buildHostedUrl config path) "http" = true
  /\ (JsString.startsWith (domain config) "http" = true ->
      buildHostedUrl config path = domain config +:+ path)
  /\ (JsString.startsWith (domain config) "http" = false ->
      buildHostedUrl config path = "https://" +:+ domain config +:+ path).
Proof.
  unfold buildHostedUrl, JsString.startsWith.
  destruct (String.prefix "http" (domain config)) eqn:E.
  - split; [now apply prefix_append|]. split; [reflexivity | discriminate].
  - split; [reflexivity|]. split; [discriminate|].
    intros _. now rewrite append_assoc.
Qed.

End HostedUrl.

Example buildHostedUrl_bare_host :
  buildHostedUrl
    {| domain := "http-auth.example.com"; clientId := "c";
       redirectUri := ""; logoutUri := ""; scope := ""; authority := None |}
    "/oauth2/token"
  = "http-auth.example.com/oauth2/token".
Proof. reflexivity. Qed.

(** ** The audio preview *)

Section PreviewFacts.

Local Abbreviation blob k := ("blob:" +:+ pretty k) (only parsing).

Lemma revoke_absent (target : string) (l : list string) :
  ~ In target l ->
  List.filter (fun x => negb (String.eqb x target)) l = l.
Proof.
  intros H. apply filter_all, Forall_forall. intros x Hx.
  apply list_elem_of_In in Hx.
  destruct (String.eqb_spec x target) as [->|_]; [contradiction|reflexivity].
Qed.

Lemma blob_inj (j k : nat) : blob j = blob k -> j = k.
Proof.
  intros E. apply (inj (String.app "blob:")) in E.
  now apply (inj pretty) in E.
Qed.

(** What holds between runs of the effect, relative to the object URLs
    [u0] that the document had before the component was mounted. *)
Local Abbreviation preview_inv u0 p u :=
  (live u = option_list (cleanup p) ++ live u0
   /\ created u0 <= created u
   /\ previewUrl p = default "" (cleanup p)
   /\ (forall target, cleanup p = Some target ->
         exists k, created u0 <= k < created u /\ target = blob k))
  (only parsing).

Lemma run_cleanup_inv (u0 : ObjectUrls) (p : Preview) (u : ObjectUrls) :
  (forall k, created u0 <= k -> ~ In (blob k) (live u0)) ->
  preview_inv u0 p u ->
  live (run_cleanup p u) = live u0
  /\ created (run_cleanup p u) = created u.
Proof.
  intros Hfresh (Hlive & Hle & _ & Hblob). unfold run_cleanup.
  destruct (cleanup p) as [target|]; [|now rewrite Hlive].
  destruct (Hblob target eq_refl) as (k & Hk & ->).
  cbn. rewrite Hlive. cbn. rewrite String.eqb_refl. cbn.
  split; [|reflexivity]. apply revoke_absent, Hfresh. lia.
Qed.

Lemma effect_file_inv (u0 : ObjectUrls) (f : option File) (p : Preview)
  (u : ObjectUrls) :
  (forall k, created u0 <= k -> ~ In (blob k) (live u0)) ->
  preview_inv u0 p u ->
  preview_inv u0 (fst (effect_file f p u)) (snd (effect_file f p u))
  /\ (cleanup (fst (effect_file f p u)) = None <-> f = None).
Proof.
  intros Hfresh Hinv.
  destruct (run_cleanup_inv u0 p u Hfresh Hinv) as [Hlive Hcreated].
  destruct Hinv as (_ & Hle & _ & _).
  unfold effect_file. destruct f as [f|]; cbn.
  - rewrite Hlive, Hcreated. repeat split; try lia; try discriminate.
    intros target [= <-]. exists (created u). split; [lia | reflexivity].
  - rewrite Hlive, Hcreated. repeat split; try lia; discriminate.
Qed.

Lemma effect_files_inv (u0 : ObjectUrls) (fs : list (option File))
  (p : Preview) (u : ObjectUrls) :
  (forall k, created u0 <= k -> ~ In (blob k) (live u0)) ->
  preview_inv u0 p u ->
  preview_inv u0 (fst (effect_files fs p u)) (snd (effect_files fs p u)).
Proof.
  intros Hfresh. revert p u.
  induction fs as [|f fs IH]; intros p u Hinv; [exact Hinv|].
  cbn [effect_files].
  pose proof (effect_file_inv u0 f p u Hfresh Hinv) as [Hstep _].
  destruct (effect_file f p u) as [p' u']. now apply IH.
Qed.

(** X25. However the selected file changes, the component keeps at most one
    object URL alive: after any sequence of changes the live URLs are those
    the document had before, plus the one shown in the preview if there is
    one; and the preview shows a URL exactly when that URL is alive.
    Unmounting releases it: the live URLs are again those the document had
    before. *)
Theorem preview_releases_object_urls (fs : list (option File))
  (u0 : ObjectUrls) :
  (forall k, created u0 <= k -> ~ In (blob k) (live u0)) ->
  let p := fst (effect_files fs Preview_initial u0) in
  let u := snd (effect_files fs Preview_initial u0) in
  live u = option_list (cleanup p) ++ live u0
  /\ previewUrl p = default "" (cleanup p)
  /\ (previewUrl p <> "" -> In (previewUrl p) (live u))
  /\ live (unmount p u) = live u0.
Proof.
  intros Hfresh. cbv zeta.
  assert (Hinit : preview_inv u0 Preview_initial u0).
  { cbn. repeat split; try lia. discriminate. }
  pose proof (effect_files_inv u0 fs Preview_initial u0 Hfresh Hinit)
    as Hinv.
  pose proof (run_cleanup_inv u0 _ _ Hfresh Hinv) as [Hun _].
  destruct Hinv as (Hlive & _ & Hshown & _).
  destruct (effect_files fs Preview_initial u0) as [p u].
  cbn [fst snd] in *.
  split; [exact Hlive|]. split; [exact Hshown|]. split; [|exact Hun].
  intros Hne. rewrite Hlive. rewrite Hshown in *.
  destruct (cleanup p) as [target|]; [now left | contradiction].
Qed.

(** X26. After the effect has run for a file, the preview shows a fresh
    object URL, and the URL that was shown for the previous file is no
    longer alive; after it has run for no file, the preview is empty. *)
Theorem effect_file_replaces (fs : list (option File)) (f : option File)
  (u0 : ObjectUrls) :
  (forall k, created u0 <= k -> ~ In (blob k) (live u0)) ->
  let p := fst (effect_files fs Preview_initial u0) in
  let u := snd (effect_files fs Preview_initial u0) in
  let p' := fst (effect_file f p u) in
  let u' := snd (effect_file f p u) in
  (f = None -> previewUrl p' = "" /\ live u' = live u0)
  /\ (f <> None ->
      previewUrl p' <> "" /\ previewUrl p' <> previewUrl p
      /\ live u' = previewUrl p' :: live u0
      /\ ~ In (previewUrl p') (live u))
  /\ (previewUrl p <> "" -> ~ In (previewUrl p) (live u')).
Proof.
  intros Hfresh. cbv zeta.
  assert (Hinit : preview_inv u0 Preview_initial u0).
  { cbn. repeat split; try lia. discriminate. }
  pose proof (effect_files_inv u0 fs Preview_initial u0 Hfresh Hinit)
    as Hinv.
  destruct (effect_files fs Preview_initial u0) as [p u]. cbn [fst snd] in *.
  destruct (run_cleanup_inv u0 p u Hfresh Hinv) as [Hlive Hcreated].
  destruct Hinv as (Hl & Hle & Hshown & Hblob).
  assert (Hold : forall k, created u <= k -> ~ In (blob k) (live u)).
  { intros k Hk. rewrite Hl. intros Hin. apply in_app_or in Hin as [Hin|Hin].
    - destruct (cleanup p) as [target|]; [|contradiction].
      destruct Hin as [E|[]]. destruct (Hblob target eq_refl) as (j & Hj & ->).
      apply blob_inj in E. lia.
    - apply (Hfresh k); [lia | exact Hin]. }
  assert (Hp : previewUrl p <> "" ->
               exists j, j < created u /\ previewUrl p = blob j
                         /\ ~ In (blob j) (live u0)).
  { rewrite Hshown. intros Hne.
    destruct (cleanup p) as [target|]; [|contradiction].
    destruct (Hblob target eq_refl) as (j & Hj & ->).
    exists j. repeat split; [lia|]. apply Hfresh. lia. }
  unfold effect_file. destruct f as [f|]; cbn.
  - rewrite Hlive, Hcreated. split; [discriminate|]. split.
    + intros _. repeat split; try discriminate; [|now apply Hold].
      intros E. destruct (String.eqb_spec (previewUrl p) "") as [E0|Hne].
      * rewrite E0 in E. discriminate E.
      * destruct (Hp Hne) as (j & Hj & Ej & _). rewrite Ej in E.
        apply blob_inj in E. lia.
    + intros Hne. destruct (Hp Hne) as (j & Hj & -> & Hnot).
      intros [E | Hin]; [|contradiction].
      apply blob_inj in E. lia.
  - rewrite Hlive. split; [now split|]. split; [congruence|].
    intros Hne. now destruct (Hp Hne) as (j & _ & -> & Hnot).
Qed.

End PreviewFacts.

Lemma preview_releases_object_urls_witness :
  let f := {| file_name := "clip.wav"; file_size := 48000 |} in
  let g := {| file_name := "talk.mp3"; file_size := 9000 |} in
  let fs := [Some f; Some g; None; Some f] in
  let u0 := {| live := []; created := 0 |} in
  let p := fst (effect_files fs Preview_initial u0) in
  let u := snd (effect_files fs Preview_initial u0) in
  live u = option_list (cleanup p) ++ live u0
  /\ previewUrl p = default "" (cleanup p)
  /\ (previewUrl p <> "" -> In (previewUrl p) (live u))
  /\ live (unmount p u) = live u0.
Proof.
  intros f g fs u0.
  apply (preview_releases_object_urls fs u0).
  intros k Hk Hin. exact Hin.
Defined.

Lemma effect_file_replaces_witness :
  let f := {| file_name := "clip.wav"; file_size := 48000 |} in
  let g := {| file_name := "talk.mp3"; file_size := 9000 |} in
  let u0 := {| live := []; created := 0 |} in
  let p := fst (effect_files [Some f] Preview_initial u0) in
  let u := snd (effect_files [Some f] Preview_initial u0) in
  let p' := fst (effect_file (Some g) p u) in
  let u' := snd (effect_file (Some g) p u) in
  (Some g = None -> previewUrl p' = "" /\ live u' = live u0)
  /\ (Some g <> None ->
      previewUrl p' <> "" /\ previewUrl p' <> previewUrl p
      /\ live u' = previewUrl p' :: live u0
      /\ ~ In (previewUrl p') (live u))
  /\ (previewUrl p <> "" -> ~ In (previewUrl p) (live u')).
Proof.
  intros f g u0.
  apply (effect_file_replaces [Some f] (Some g) u0).
  intros k Hk Hin. exact Hin.
Defined.

Example preview_urls :
  let f := {| file_name := "clip.wav"; file_size := 48000 |} in
  let u0 := {| live := []; created := 0 |} in
  effect_files [Some f; Some f; None; Some f] Preview_initial u0
  = ({| previewUrl := "blob:2"; cleanup := Some "blob:2" |},
     {| live := ["blob:2"]; created := 3 |}).
Proof. vm_compute. reflexivity. Qed.
